(** * github_resolver.resolve_issues: a shallow embedding and its properties

    The module under study is [src/github_resolver/resolve_issues.py].  Its
    functions are embedded as Rocq functions.  Everything the module reaches
    through an import (the sandbox runtime, the agent controller, the
    inference service, the file system, [subprocess]) is a field of a
    [World] record; the functions of the module are defined over an arbitrary
    world, and concrete scripted worlds are used to run them.

    Conventions.
    - A Python [str] is the [string] of its UTF-8 bytes.
    - A Python exception is a value of [exn]; a call that may raise returns
      a [result].
    - A coroutine is the function that runs it to completion; the only place
      where interleaving matters, the [asyncio.gather] of [resolve_issues],
      is a transition system driven by a schedule.
    - Logging and the progress bar are left out, and so is the operator's
      interrupt ([KeyboardInterrupt]), which no function of the module
      raises. *)

From Stdlib Require Import ZArith List String Ascii Bool Lia DecimalString.
Import ListNotations.
Open Scope string_scope.
Open Scope Z_scope.

(** ** Exceptions and results *)

(** The exceptions the module can meet.  [RuntimeError] and [ValueError]
    carry the message the source gives them; the interpreter's own
    exceptions carry none, except [KeyError] which names the key.
    [ExternalError] is whatever a collaborator raises. *)
Inductive exn : Type :=
| RuntimeError (msg : string)
| ValueError (msg : string)
| JSONDecodeError
| KeyError (key : string)
| IndexError
| TypeError
| AttributeError
| ExternalError (msg : string).

Inductive result (A : Type) : Type :=
| Ok (a : A)
| Raise (e : exn).
Arguments Ok {A} a.
Arguments Raise {A} e.

(** ** Text *)

Module Text.

(** The double quote, which the source writes inside its literals. *)
Definition dquote : string := String (ascii_of_nat 34) EmptyString.
Definition quoted (s : string) : string := dquote ++ s ++ dquote.
Definition newline : string := String (ascii_of_nat 10) EmptyString.

Definition bytes (s : string) : list N := map N_of_ascii (list_ascii_of_string s).
Definition of_bytes (l : list N) : string :=
  string_of_list_ascii (map ascii_of_N l).

(** [str(n)] for an [int]. *)
Definition str_of_int (n : Z) : string := NilZero.string_of_int (Z.to_int n).

(** The white space of [str.strip()]: the code points Python's
    [str.isspace] accepts, as UTF-8 sequences.  [ws_prefix l] is the byte
    length of the white space character [l] starts with, or [0]. *)
Definition ascii_space (b : N) : bool :=
  (((9 <=? b) && (b <=? 13)) || ((28 <=? b) && (b <=? 32)))%N.

Definition ws_prefix (l : list N) : nat :=
  match l with
  | b :: r =>
      if ascii_space b then 1%nat
      else match b, r with
      | 194%N, c :: _ => if ((c =? 133) || (c =? 160))%N then 2%nat else 0%nat
      | 225%N, 154%N :: 128%N :: _ => 3%nat
      | 226%N, 128%N :: c :: _ =>
          if (((128 <=? c) && (c <=? 138)) || (c =? 168) || (c =? 169) || (c =? 175))%N
          then 3%nat else 0%nat
      | 226%N, 129%N :: 159%N :: _ => 3%nat
      | 227%N, 128%N :: 128%N :: _ => 3%nat
      | _, _ => 0%nat
      end
  | [] => 0%nat
  end.

(** The same read from the end of the text: [l] is the reversed text. *)
Definition ws_suffix (l : list N) : nat :=
  match l with
  | b :: r =>
      if ascii_space b then 1%nat
      else match r with
      | 194%N :: _ => if ((b =? 133) || (b =? 160))%N then 2%nat else 0%nat
      | 154%N :: 225%N :: _ => if (b =? 128)%N then 3%nat else 0%nat
      | 128%N :: 226%N :: _ =>
          if (((128 <=? b) && (b <=? 138)) || (b =? 168) || (b =? 169) || (b =? 175))%N
          then 3%nat else 0%nat
      | 129%N :: 226%N :: _ => if (b =? 159)%N then 3%nat else 0%nat
      | 128%N :: 227%N :: _ => if (b =? 128)%N then 3%nat else 0%nat
      | _ => 0%nat
      end
  | [] => 0%nat
  end.

Fixpoint drop_while (width : list N -> nat) (fuel : nat) (l : list N) : list N :=
  match fuel with
  | O => l
  | S fuel' =>
      match width l with
      | O => l
      | k => drop_while width fuel' (skipn k l)
      end
  end.

(** [s.strip()]; the passes are bounded by the length of the text, which
    is enough ([drop_while_fuel]). *)
Definition strip (s : string) : string :=
  let l := drop_while ws_prefix (String.length s) (bytes s) in
  of_bytes (rev (drop_while ws_suffix (List.length l) (rev l))).

Fixpoint starts_with (p s : string) : bool :=
  match p, s with
  | EmptyString, _ => true
  | String a p', String b s' => Ascii.eqb a b && starts_with p' s'
  | String _ _, EmptyString => false
  end.

Fixpoint ends_with_char (c : ascii) (s : string) : bool :=
  match s with
  | EmptyString => false
  | String a EmptyString => Ascii.eqb a c
  | String _ s' => ends_with_char c s'
  end.

Fixpoint drop (n : nat) (s : string) : string :=
  match n, s with
  | O, _ => s
  | S n', String _ s' => drop n' s'
  | S _, EmptyString => EmptyString
  end.

(** [s.split(sep)] for a one-character separator. *)
Fixpoint split_on (sep : ascii) (s : string) : list string :=
  match s with
  | EmptyString => [EmptyString]
  | String c s' =>
      if Ascii.eqb c sep then EmptyString :: split_on sep s'
      else match split_on sep s' with
           | w :: ws => String c w :: ws
           | [] => [String c EmptyString]
           end
  end.

(** [needle in s] *)
Fixpoint contains (needle s : string) : bool :=
  starts_with needle s ||
  match s with
  | EmptyString => false
  | String _ s' => contains needle s'
  end.

(** [os.path.join(a, b)] on a POSIX system. *)
Definition path_join (a b : string) : string :=
  if starts_with "/" b then b
  else if (String.eqb a "" || ends_with_char "/" a)%bool then a ++ b
  else a ++ "/" ++ b.

End Text.

(** ** JSON values and [json.loads] *)

Module Json.
Import Text.

(** What [json.loads] returns: [None], a [bool], an [int], a [float] (kept
    as the lexeme it was read from), a [str], a [list] or a [dict].  A
    [dict] is kept as the pairs in the order read; a later pair with the
    same key wins, as in [dict(pairs)]. *)
#[warnings="-register-all"]
Inductive json : Type :=
| JNull
| JBool (b : bool)
| JInt (n : Z)
| JFloat (lexeme : string)
| JString (s : string)
| JArray (items : list json)
| JObject (pairs : list (string * json)).

Definition chr (n : nat) : ascii := ascii_of_nat n.

Definition is_ws (c : ascii) : bool :=
  Ascii.eqb c " " || Ascii.eqb c (chr 9) || Ascii.eqb c (chr 10) || Ascii.eqb c (chr 13).

Fixpoint skip_ws (s : string) : string :=
  match s with
  | String c s' => if is_ws c then skip_ws s' else s
  | EmptyString => s
  end.

Definition is_digit (c : ascii) : bool :=
  let n := N_of_ascii c in ((48 <=? n) && (n <=? 57))%N.

Definition hex_val (c : ascii) : option N :=
  let n := N_of_ascii c in
  if ((48 <=? n) && (n <=? 57))%N then Some (n - 48)%N
  else if ((65 <=? n) && (n <=? 70))%N then Some (n - 55)%N
  else if ((97 <=? n) && (n <=? 102))%N then Some (n - 87)%N
  else None.

Definition hex4 (a b c d : ascii) : option N :=
  match hex_val a, hex_val b, hex_val c, hex_val d with
  | Some x, Some y, Some z, Some w => Some (((x * 16 + y) * 16 + z) * 16 + w)%N
  | _, _, _, _ => None
  end.

(** The escapes of one character: the backslash is followed by [e]. *)
Definition simple_escape (e : ascii) : option ascii :=
  if Ascii.eqb e (chr 34) then Some (chr 34)
  else if Ascii.eqb e (chr 92) then Some (chr 92)
  else if Ascii.eqb e "/" then Some "/"%char
  else if Ascii.eqb e "b" then Some (chr 8)
  else if Ascii.eqb e "f" then Some (chr 12)
  else if Ascii.eqb e "n" then Some (chr 10)
  else if Ascii.eqb e "r" then Some (chr 13)
  else if Ascii.eqb e "t" then Some (chr 9)
  else None.

(** A string literal is read as pieces: a byte taken as it stands, or the
    code point of a [\uXXXX] escape. *)
Inductive piece : Type :=
| Raw (b : ascii)
| Esc (cp : N).

Definition push {A B} (a : A) (r : option (list A * B)) : option (list A * B) :=
  match r with
  | Some (l, rest) => Some (a :: l, rest)
  | None => None
  end.

(** The body of a string literal, after its opening quote, up to and
    including the closing one ([strict] mode: a control character ends the
    parse). *)
Fixpoint scan_pieces (s : string) : option (list piece * string) :=
  match s with
  | EmptyString => None
  | String c rest =>
      if Ascii.eqb c (chr 34) then Some ([], rest)
      else if Ascii.eqb c (chr 92) then
        match rest with
        | EmptyString => None
        | String e rest1 =>
            if Ascii.eqb e "u" then
              match rest1 with
              | String h1 (String h2 (String h3 (String h4 rest2))) =>
                  match hex4 h1 h2 h3 h4 with
                  | Some cp => push (Esc cp) (scan_pieces rest2)
                  | None => None
                  end
              | _ => None
              end
            else
              match simple_escape e with
              | Some b => push (Raw b) (scan_pieces rest1)
              | None => None
              end
        end
      else if (N_of_ascii c <? 32)%N then None
      else push (Raw c) (scan_pieces rest)
  end.

(** Two escapes in a row that form a surrogate pair are one code point. *)
Fixpoint join_surrogates (l : list piece) : list piece :=
  match l with
  | [] => []
  | Raw b :: t => Raw b :: join_surrogates t
  | Esc hi :: t =>
      match t with
      | Esc lo :: t' =>
          if ((55296 <=? hi) && (hi <=? 56319) && (56320 <=? lo) && (lo <=? 57343))%N
          then Esc (65536 + N.lor (N.shiftl (hi - 55296) 10) (lo - 56320))%N
                 :: join_surrogates t'
          else Esc hi :: join_surrogates t
      | _ => Esc hi :: join_surrogates t
      end
  end.

Definition utf8 (cp : N) : list N :=
  (if cp <? 128 then [cp]
   else if cp <? 2048 then [192 + cp / 64; 128 + cp mod 64]
   else if cp <? 65536 then [224 + cp / 4096; 128 + (cp / 64) mod 64; 128 + cp mod 64]
   else [240 + cp / 262144; 128 + (cp / 4096) mod 64; 128 + (cp / 64) mod 64;
         128 + cp mod 64])%N.

Definition piece_bytes (p : piece) : list N :=
  match p with
  | Raw b => [N_of_ascii b]
  | Esc cp => utf8 cp
  end.

Definition scan_string (s : string) : option (string * string) :=
  match scan_pieces s with
  | Some (ps, rest) => Some (of_bytes (flat_map piece_bytes (join_surrogates ps)), rest)
  | None => None
  end.

(** Numbers: an optional minus sign, then [0] or a digit string that does
    not start with [0]; then, optionally, a dot and digits; then, optionally,
    [e] or [E], an optional sign and digits. *)
Fixpoint span_digits (s : string) : string * string :=
  match s with
  | String c r =>
      if is_digit c then let (d, rest) := span_digits r in (String c d, rest)
      else (EmptyString, s)
  | EmptyString => (EmptyString, EmptyString)
  end.

Definition scan_integer (s : string) : option (string * string) :=
  let (sign, s1) :=
    match s with
    | String c r => if Ascii.eqb c "-" then ("-", r) else ("", s)
    | EmptyString => ("", s)
    end in
  match s1 with
  | String c r =>
      if Ascii.eqb c "0" then Some (sign ++ "0", r)
      else if is_digit c then let (d, rest) := span_digits s1 in Some (sign ++ d, rest)
      else None
  | EmptyString => None
  end.

Definition scan_frac (s : string) : string * string :=
  match s with
  | String c r =>
      if Ascii.eqb c "." then
        let (d, rest) := span_digits r in
        if String.eqb d "" then ("", s) else (String c d, rest)
      else ("", s)
  | EmptyString => ("", s)
  end.

Definition scan_exp (s : string) : string * string :=
  match s with
  | String c r =>
      if Ascii.eqb c "e" || Ascii.eqb c "E" then
        let (sg, r1) :=
          match r with
          | String x r' =>
              if Ascii.eqb x "+" || Ascii.eqb x "-" then (String x "", r') else ("", r)
          | EmptyString => ("", r)
          end in
        let (d, rest) := span_digits r1 in
        if String.eqb d "" then ("", s) else (String c (sg ++ d), rest)
      else ("", s)
  | EmptyString => ("", s)
  end.

(** [int(lexeme)] for a lexeme of [scan_integer]. *)
Fixpoint digits_value (acc : Z) (s : string) : Z :=
  match s with
  | String c r => digits_value (10 * acc + (Z.of_N (N_of_ascii c) - 48)) r
  | EmptyString => acc
  end.

Definition int_of_lexeme (s : string) : Z :=
  match s with
  | String c r => if Ascii.eqb c "-" then - digits_value 0 r else digits_value 0 s
  | EmptyString => 0
  end.

Definition scan_number (s : string) : option (json * string) :=
  match scan_integer s with
  | Some (i, r) =>
      let (f, r1) := scan_frac r in
      let (e, r2) := scan_exp r1 in
      if String.eqb f "" && String.eqb e "" then Some (JInt (int_of_lexeme i), r2)
      else Some (JFloat (i ++ f ++ e), r2)
  | None => None
  end.

Definition scan_literal (s : string) : option (json * string) :=
  if starts_with "null" s then Some (JNull, drop 4 s)
  else if starts_with "true" s then Some (JBool true, drop 4 s)
  else if starts_with "false" s then Some (JBool false, drop 5 s)
  else match scan_number s with
       | Some r => Some r
       | None =>
           if starts_with "NaN" s then Some (JFloat "NaN", drop 3 s)
           else if starts_with "Infinity" s then Some (JFloat "Infinity", drop 8 s)
           else if starts_with "-Infinity" s then Some (JFloat "-Infinity", drop 9 s)
           else None
       end.

(** The recursive descent of [json.scanner]: [scan_once] reads one value,
    [scan_pairs] the pairs of an object from the quote of a key on,
    [scan_items] the items of an array.  Each call spends one unit of
    [fuel]; [2 * n + 2] is more than a text of [n] characters needs
    ([loads_fuel]). *)
Fixpoint scan_once (fuel : nat) (s : string) : option (json * string) :=
  match fuel with
  | O => None
  | S f =>
      match s with
      | EmptyString => None
      | String c rest =>
          if Ascii.eqb c (chr 34) then
            match scan_string rest with
            | Some (str, r) => Some (JString str, r)
            | None => None
            end
          else if Ascii.eqb c "{" then
            match skip_ws rest with
            | String c1 r1 =>
                if Ascii.eqb c1 "}" then Some (JObject [], r1)
                else match scan_pairs f (String c1 r1) with
                     | Some (ps, r) => Some (JObject ps, r)
                     | None => None
                     end
            | EmptyString => None
            end
          else if Ascii.eqb c "[" then
            match skip_ws rest with
            | String c1 r1 =>
                if Ascii.eqb c1 "]" then Some (JArray [], r1)
                else match scan_items f (String c1 r1) with
                     | Some (xs, r) => Some (JArray xs, r)
                     | None => None
                     end
            | EmptyString => None
            end
          else scan_literal s
      end
  end
with scan_pairs (fuel : nat) (s : string) : option (list (string * json) * string) :=
  match fuel with
  | O => None
  | S f =>
      match s with
      | EmptyString => None
      | String c rest =>
          if Ascii.eqb c (chr 34) then
            match scan_string rest with
            | Some (key, r1) =>
                match skip_ws r1 with
                | String c2 r2 =>
                    if Ascii.eqb c2 ":" then
                      match scan_once f (skip_ws r2) with
                      | Some (v, r3) =>
                          match skip_ws r3 with
                          | String c4 r4 =>
                              if Ascii.eqb c4 "}" then Some ([(key, v)], r4)
                              else if Ascii.eqb c4 "," then
                                push (key, v) (scan_pairs f (skip_ws r4))
                              else None
                          | EmptyString => None
                          end
                      | None => None
                      end
                    else None
                | EmptyString => None
                end
            | None => None
            end
          else None
      end
  end
with scan_items (fuel : nat) (s : string) : option (list json * string) :=
  match fuel with
  | O => None
  | S f =>
      match scan_once f s with
      | Some (v, r1) =>
          match skip_ws r1 with
          | String c2 r2 =>
              if Ascii.eqb c2 "]" then Some ([v], r2)
              else if Ascii.eqb c2 "," then push v (scan_items f (skip_ws r2))
              else None
          | EmptyString => None
          end
      | None => None
      end
  end.

(** [json.loads(s)]: one value between optional white space, or
    [JSONDecodeError]. *)
Definition loads (s : string) : result json :=
  match scan_once (2 * String.length s + 2) (skip_ws s) with
  | Some (v, rest) =>
      match skip_ws rest with
      | EmptyString => Ok v
      | String _ _ => Raise JSONDecodeError
      end
  | None => Raise JSONDecodeError
  end.

(** [d[key]] on a [dict] given as its pairs. *)
Fixpoint dict_get (key : string) (pairs : list (string * json)) : option json :=
  match pairs with
  | [] => None
  | (k, v) :: rest =>
      match dict_get key rest with
      | Some later => Some later
      | None => if String.eqb k key then Some v else None
      end
  end.

(** [v[key]] for a string [key]: only a [dict] can be subscripted by one. *)
Definition getitem (v : json) (key : string) : result json :=
  match v with
  | JObject pairs =>
      match dict_get key pairs with
      | Some x => Ok x
      | None => Raise (KeyError key)
      end
  | _ => Raise TypeError
  end.

(** Whether [hash(v)] is defined, as [set.add] needs. *)
Definition hashable (v : json) : bool :=
  match v with
  | JArray _ | JObject _ => false
  | _ => true
  end.

End Json.

(** ** The data the module handles *)

Import Text Json.

(** [github_resolver.github_issue.GithubIssue] *)
Record GithubIssue : Type := {
  owner : string;
  repo : string;
  number : Z;
  title : string;
  body : string
}.

(** [openhands.core.config.LLMConfig], the two fields the module reads. *)
Record LLMConfig : Type := {
  model : string;
  api_key : string
}.

Record SandboxConfig : Type := {
  runtime_container_image : string;
  enable_auto_lint : bool;
  use_host_network : bool;
  sandbox_timeout : Z
}.

Record AppConfig : Type := {
  default_agent : string;
  runtime : string;
  max_budget_per_task : Z;
  max_iterations : Z;
  sandbox : SandboxConfig;
  workspace_base : string;
  workspace_mount_path : string;
  llm : LLMConfig
}.

(** [CmdRunAction]: [keep_prompt] is [True] unless given, [timeout] is unset
    unless assigned. *)
Record CmdRunAction : Type := {
  command : string;
  keep_prompt : bool;
  timeout : option Z
}.

Definition cmd (c : string) : CmdRunAction :=
  {| command := c; keep_prompt := true; timeout := None |}.

(** What [runtime.run_action] hands back: a [CmdOutputObservation], an
    [ErrorObservation], or an observation of another class. *)
Inductive Observation : Type :=
| CmdOutputObservation (exit_code : Z) (content : string)
| ErrorObservation (content : string)
| OtherObservation (class_name : string).

(** An event of the agent's history: its [message], and the rest of it. *)
Record Event : Type := {
  message : string;
  detail : string
}.

(** The controller's final [State], as far as the module reads it. *)
Record State : Type := {
  history : list Event;
  metrics : option json;
  last_error : option string
}.

(** [github_resolver.resolver_output.ResolverOutput], with the fields
    [process_issue] gives it.  [success] and [success_explanation] hold
    whatever [guess_success] returned. *)
Record ResolverOutput : Type := {
  out_issue : GithubIssue;
  out_instruction : string;
  out_base_commit : string;
  out_git_patch : option string;
  out_history : list Event;
  out_metrics : option json;
  out_success : json;
  out_success_explanation : json;
  out_error : option string
}.

(** What the program does to the outside, in the order it does it. *)
Inductive event : Type :=
| EvDownload (owner repo : string)
| EvMkdir (path : string)
| EvCheckOutput (argv : list string)
| EvReadLines (path : string)
| EvOpenAppend (path : string)
| EvClose (path : string)
| EvCopytree (src dst : string)
| EvCreateRuntime (sid : string)
| EvAction (a : CmdRunAction) (o : Observation)
| EvSleep (secs : Z)
| EvRunController (task_str : string)
| EvCompletion (model prompt api_key : string)
| EvAcquire (task : nat)
| EvRelease (task : nat)
| EvWrite (record : ResolverOutput).

(** ** The outside world *)

(** The collaborators of the module.  Each sandbox has a state of its own
    ([Runtime]), which [run_action] and [run_controller] advance; the other
    collaborators answer by their arguments. *)
Record World : Type := {
  Runtime : Type;
  (** [await runtime.run_action(action)] *)
  run_action : Runtime -> CmdRunAction -> Observation * Runtime;
  (** [await create_runtime(config, sid=...)] *)
  create_runtime : AppConfig -> string -> result Runtime;
  (** [await run_controller(config, task_str, runtime, ...)]: a [State],
      [None], or an exception. *)
  run_controller : AppConfig -> string -> Runtime -> result (option State) * Runtime;
  (** [completion(model, messages, api_key)] for the one user message
      [prompt]: [response.choices[0].message.content], which may be [None]. *)
  completion : string -> string -> string -> result (option string);
  (** [shutil.copytree(src, dst)] *)
  copytree : string -> string -> result unit;
  (** [os.path.abspath] *)
  abspath : string -> string;
  (** [download_issues_from_github(owner, repo, token)] *)
  download_issues : string -> string -> string -> result (list GithubIssue);
  (** [pathlib.Path(p).mkdir(parents=True, exist_ok=True)] *)
  mkdir : string -> result unit;
  (** [subprocess.check_output(argv).decode("utf-8")] *)
  check_output : list string -> result string;
  (** [os.path.exists] *)
  path_exists : string -> bool;
  (** the lines [for line in f] yields for the file at a path *)
  read_lines : string -> list string;
  (** [os.getenv] *)
  getenv : string -> option string;
  (** [n == x] for an [int] [n] and the [float] [x] read from a lexeme *)
  float_eq_int : Z -> string -> bool
}.

(** ** Effects *)

(** A computation that logs events and may raise. *)
Definition IO (A : Type) : Type := result A * list event.

Definition io_ret {A} (a : A) : IO A := (Ok a, []).
Definition io_raise {A} (e : exn) : IO A := (Raise e, []).
Definition io_log (ev : event) : IO unit := (Ok tt, [ev]).
Definition io_lift {A} (ev : event) (r : result A) : IO A := (r, [ev]).
Definition io_bind {A B} (m : IO A) (k : A -> IO B) : IO B :=
  match m with
  | (Ok a, t) => let (r, t') := k a in (r, (t ++ t')%list)
  | (Raise e, t) => (Raise e, t)
  end.

(** A computation that also drives one sandbox. *)
Definition Sandbox (R A : Type) : Type := R -> result A * R * list event.

Definition sb_ret {R A} (a : A) : Sandbox R A := fun rt => (Ok a, rt, []).
Definition sb_raise {R A} (e : exn) : Sandbox R A := fun rt => (Raise e, rt, []).
Definition sb_bind {R A B} (m : Sandbox R A) (k : A -> Sandbox R B) : Sandbox R B :=
  fun rt =>
    match m rt with
    | (Ok a, rt1, t) => let '(r, rt2, t') := k a rt1 in (r, rt2, (t ++ t')%list)
    | (Raise e, rt1, t) => (Raise e, rt1, t)
    end.
Definition sb_io {R A} (m : IO A) : Sandbox R A := fun rt => (fst m, rt, snd m).

Declare Scope sandbox_scope.
Delimit Scope sandbox_scope with sandbox.
Notation "x <- m ;; k" := (sb_bind m (fun x => k))
  (at level 61, m at next level, right associativity) : sandbox_scope.
Notation "m ;; k" := (sb_bind m (fun _ => k))
  (at level 61, right associativity) : sandbox_scope.

Declare Scope io_scope.
Delimit Scope io_scope with io.
Notation "x <- m ;; k" := (io_bind m (fun x => k))
  (at level 61, m at next level, right associativity) : io_scope.
Notation "m ;; k" := (io_bind m (fun _ => k))
  (at level 61, right associativity) : io_scope.

(** ** The functions of the module *)

Section Resolver.

Context (W : World).

(** [obs = await runtime.run_action(action)] *)
Definition run (action : CmdRunAction) : Sandbox (Runtime W) Observation :=
  fun rt => let (obs, rt') := run_action W rt action in (Ok obs, rt', [EvAction action obs]).

(** [await asyncio.sleep(secs)] *)
Definition sleep (secs : Z) : Sandbox (Runtime W) unit :=
  fun rt => (Ok tt, rt, [EvSleep secs]).

(** [if not isinstance(obs, CmdOutputObservation) or obs.exit_code != 0:
    raise RuntimeError(f"<failure> Exit code: {obs.exit_code}")].  For an
    observation without an [exit_code] it is the message that fails. *)
Definition require_success (failure : string) (obs : Observation) : Sandbox (Runtime W) unit :=
  match obs with
  | CmdOutputObservation exit_code _ =>
      if exit_code =? 0 then sb_ret tt
      else sb_raise (RuntimeError (failure ++ " Exit code: " ++ str_of_int exit_code))
  | _ => sb_raise AttributeError
  end.

Definition pager_command : string :=
  "git config --global core.pager " ++ dquote ++ dquote.

Definition initialize_runtime : Sandbox (Runtime W) unit :=
  (obs <- run (cmd "cd /workspace") ;;
   require_success "Failed to change directory to /workspace." obs ;;
   obs <- run (cmd pager_command) ;;
   require_success "Failed to set git config." obs)%sandbox.

(** The action of one pass of the diff loop. *)
Definition diff_action (base_commit : string) (n_retries : Z) : CmdRunAction :=
  {| command := "git diff --no-color --cached " ++ base_commit;
     keep_prompt := false;
     timeout := Some (600 + 100 * n_retries) |}.

(** [while n_retries < 5: ...], from the current [n_retries] on, with
    [git_patch] still [None].  [fuel] bounds the passes; [5 - n_retries] is
    enough ([diff_loop_fuel]). *)
Fixpoint diff_loop (fuel : nat) (base_commit : string) (n_retries : Z)
  : Sandbox (Runtime W) (option string) :=
  match fuel with
  | O => sb_ret None
  | S fuel' =>
      if n_retries <? 5 then
        (obs <- run (diff_action base_commit n_retries) ;;
         let n_retries := n_retries + 1 in
         match obs with
         | CmdOutputObservation exit_code content =>
             if exit_code =? 0 then sb_ret (Some (strip content))
             else (sleep 10 ;; diff_loop fuel' base_commit n_retries)
         | ErrorObservation _ =>
             (sleep 10 ;; diff_loop fuel' base_commit n_retries)
         | OtherObservation class_name =>
             sb_raise (ValueError ("Unexpected observation type: " ++ class_name))
         end)%sandbox
      else sb_ret None
  end.

(** [complete_runtime(runtime, base_commit)], giving [return_val['git_patch']]. *)
Definition complete_runtime (base_commit : string) : Sandbox (Runtime W) (option string) :=
  (obs <- run (cmd "cd /workspace") ;;
   require_success "Failed to change directory to /workspace." obs ;;
   obs <- run (cmd pager_command) ;;
   require_success "Failed to set git config." obs ;;
   obs <- run (cmd "git config --global --add safe.directory /workspace") ;;
   require_success "Failed to set git config." obs ;;
   obs <- run (cmd "git add -A") ;;
   require_success "Failed to git add." obs ;;
   diff_loop 5 base_commit 0)%sandbox.

Definition get_instruction (issue : GithubIssue) : string :=
  "Please fix the following issue for the repository in /workspace." ++ newline ++
  "Environment has been set up for you to start working. You may assume all necessary tools are installed." ++ newline ++ newline ++
  "# Problem Statement" ++ newline ++
  body issue ++ newline ++ newline ++
  "IMPORTANT: You should ONLY interact with the environment provided to you AND NEVER ASK FOR HUMAN HELP." ++ newline ++
  "You should NOT modify any existing test case files. If needed, you can add new test cases in a NEW file to reproduce the issue." ++ newline ++
  "You SHOULD INCLUDE PROPER INDENTATION in your edit commands." ++ newline ++
  "When you think you have fixed the issue through code changes, please run the following command: <execute_bash> exit </execute_bash>.".

(** The prompt of [guess_success]. *)
Definition success_prompt (issue_body last_message : string) : string :=
  "Given the following issue description and the last message from an AI agent attempting to fix it, determine if the issue has been successfully resolved." ++ newline ++ newline ++
  "Issue description:" ++ newline ++
  issue_body ++ newline ++ newline ++
  "Last message from AI agent:" ++ newline ++
  last_message ++ newline ++ newline ++
  "Has the issue been successfully resolved? Answer in JSON in the format {success: bool, explanation: str}.".

(** [l[-1]] *)
Fixpoint last_item {A} (l : list A) : result A :=
  match l with
  | [] => Raise IndexError
  | [a] => Ok a
  | _ :: l' => last_item l'
  end.

(** The body of the [try] in [guess_success]. *)
Definition parse_answer (answer : string) : result (json * json) :=
  match loads answer with
  | Raise e => Raise e
  | Ok json_answer =>
      match getitem json_answer "success" with
      | Raise e => Raise e
      | Ok success =>
          match getitem json_answer "explanation" with
          | Raise e => Raise e
          | Ok explanation => Ok (success, explanation)
          end
      end
  end.

(** [guess_success(issue, history, llm_config)]; [history] is what
    [history.get_events_as_list()] returns. *)
Definition guess_success (issue : GithubIssue) (history : list Event)
    (llm_config : LLMConfig) : IO (json * json) :=
  match last_item history with
  | Raise e => io_raise e
  | Ok last_event =>
      let last_message := message last_event in
      let prompt := success_prompt (body issue) last_message in
      (content <- io_lift (EvCompletion (model llm_config) prompt (api_key llm_config))
                    (completion W (model llm_config) prompt (api_key llm_config)) ;;
       match content with
       | None => io_raise AttributeError
       | Some text =>
           let answer := strip text in
           match parse_answer answer with
           | Raise JSONDecodeError =>
               io_ret (JBool false,
                       JString ("Failed to decode JSON from LLM response: " ++ answer))
           | Raise e => io_raise e
           | Ok verdict => io_ret verdict
           end
       end)%io
  end.

(** [state.last_error if state and state.last_error else None] *)
Definition error_of (state : State) : option string :=
  match last_error state with
  | Some e => if String.eqb e "" then None else Some e
  | None => None
  end.

(** The part of [process_issue] that runs once the sandbox exists. *)
Definition in_sandbox (issue : GithubIssue) (base_commit : string)
    (llm_config : LLMConfig) (config : AppConfig) : Sandbox (Runtime W) ResolverOutput :=
  (initialize_runtime ;;
   let instruction := get_instruction issue in
   state <- (fun rt =>
               let (r, rt') := run_controller W config instruction rt in
               (r, rt', [EvRunController instruction])) ;;
   match state with
   | None => sb_raise (RuntimeError "Failed to run the agent.")
   | Some state =>
       git_patch <- complete_runtime base_commit ;;
       let histories := history state in
       let metrics := metrics state in
       verdict <- sb_io (guess_success issue (history state) llm_config) ;;
       sb_ret {| out_issue := issue;
                 out_instruction := instruction;
                 out_base_commit := base_commit;
                 out_git_patch := git_patch;
                 out_history := histories;
                 out_metrics := metrics;
                 out_success := fst verdict;
                 out_success_explanation := snd verdict;
                 out_error := error_of state |}
   end)%sandbox.

Definition process_issue (issue : GithubIssue) (base_commit : string)
    (max_iterations : Z) (llm_config : LLMConfig) (output_dir : string)
    (runtime_container_image : string) (reset_logger : bool) : IO ResolverOutput :=
  let workspace_base :=
    abspath W (path_join (path_join output_dir "workspace")
                         ("issue_" ++ str_of_int (number issue))) in
  (io_lift (EvCopytree (path_join output_dir "repo") workspace_base)
           (copytree W (path_join output_dir "repo") workspace_base) ;;
   let config :=
     {| default_agent := "CodeActAgent";
        runtime := "eventstream";
        max_budget_per_task := 4;
        max_iterations := max_iterations;
        sandbox := {| runtime_container_image := runtime_container_image;
                      enable_auto_lint := true;
                      use_host_network := false;
                      sandbox_timeout := 300 |};
        workspace_base := workspace_base;
        workspace_mount_path := workspace_base;
        llm := llm_config |} in
   runtime <- io_lift (EvCreateRuntime (str_of_int (number issue)))
                (create_runtime W config (str_of_int (number issue))) ;;
   let '(r, _, t) := in_sandbox issue base_commit llm_config config runtime in
   (r, t))%io.

(** [update_progress(output, output_fp, pbar)]: await the pipeline, then
    append its record as one line and flush. *)
Definition update_progress (output : IO ResolverOutput) : IO unit :=
  (resolved_output <- output ;;
   io_log (EvWrite resolved_output))%io.

(** *** The ledger scan and the filter *)

(** [n == v] for the [int] [n] and a value read from the ledger. *)
Definition int_eq (n : Z) (v : json) : bool :=
  match v with
  | JInt m => n =? m
  | JBool b => n =? (if b then 1 else 0)
  | JFloat x => float_eq_int W n x
  | _ => false
  end.

(** [n in finished_numbers]; the set is kept as the list of the values
    added to it. *)
Definition number_in (n : Z) (finished_numbers : list json) : bool :=
  existsb (int_eq n) finished_numbers.

(** [for line in f: data = json.loads(line); finished_numbers.add(data["number"])] *)
Fixpoint load_finished (lines : list string) (finished_numbers : list json)
  : result (list json) :=
  match lines with
  | [] => Ok finished_numbers
  | line :: rest =>
      match loads line with
      | Raise e => Raise e
      | Ok data =>
          match getitem data "number" with
          | Raise e => Raise e
          | Ok n =>
              if hashable n then load_finished rest (finished_numbers ++ [n])%list
              else Raise TypeError
          end
      end
  end.

(** The loop that builds [new_issues]. *)
Definition filter_finished (issues : list GithubIssue) (finished_numbers : list json)
  : list GithubIssue :=
  filter (fun issue => negb (number_in (number issue) finished_numbers)) issues.

(** [l[:n]] *)
Definition slice_to {A} (l : list A) (n : Z) : list A :=
  if 0 <=? n then firstn (Z.to_nat n) l
  else firstn (Z.to_nat (Z.of_nat (List.length l) + n)) l.

(** [f"{x}"] for a value that may be [None]. *)
Definition fmt_opt (x : option string) : string :=
  match x with
  | Some s => s
  | None => "None"
  end.

(** *** resolve_issues *)

Record Args : Type := {
  a_owner : string;
  a_repo : string;
  a_token : string;
  a_username : option string;
  a_max_iterations : Z;
  a_limit_issues : option Z;
  a_num_workers : Z;
  a_output_dir : string;
  a_llm_config : LLMConfig;
  a_runtime_container_image : string
}.

(** The arguments of one [process_issue(...)] call, that is, one coroutine
    of the [tasks] list. *)
Record Task : Type := {
  t_issue : GithubIssue;
  t_base_commit : string;
  t_max_iterations : Z;
  t_llm_config : LLMConfig;
  t_output_dir : string;
  t_runtime_container_image : string;
  t_reset_logger : bool
}.

Definition run_task (t : Task) : IO unit :=
  update_progress
    (process_issue (t_issue t) (t_base_commit t) (t_max_iterations t) (t_llm_config t)
                   (t_output_dir t) (t_runtime_container_image t) (t_reset_logger t)).

(** What [resolve_issues] holds when it reaches [asyncio.gather]. *)
Record Plan : Type := {
  p_issues : list GithubIssue;
  p_base_commit : string;
  p_output_file : string;
  p_finished_numbers : list json;
  p_new_issues : list GithubIssue;
  p_tasks : list Task
}.

Definition clone_argv (a : Args) : list string :=
  ["git"; "clone";
   "https://" ++ fmt_opt (a_username a) ++ ":" ++ a_token a ++ "@github.com/"
     ++ a_owner a ++ "/" ++ a_repo a;
   a_output_dir a ++ "/repo"].

Definition rev_parse_argv (a : Args) : list string :=
  ["cd"; a_output_dir a ++ "/repo"; "&&"; "git"; "rev-parse"; "HEAD"].

(** The coroutine the [for issue in issues] loop appends to [tasks]. *)
Definition make_task (a : Args) (base_commit : string) (issue : GithubIssue) : Task :=
  {| t_issue := issue;
     t_base_commit := base_commit;
     t_max_iterations := a_max_iterations a;
     t_llm_config := a_llm_config a;
     t_output_dir := a_output_dir a;
     t_runtime_container_image := a_runtime_container_image a;
     t_reset_logger := 1 <? a_num_workers a |}.

(** [resolve_issues] from its first line to the end of the [for] loop that
    fills [tasks]. *)
Definition prepare (a : Args) : IO Plan :=
  (issues <- io_lift (EvDownload (a_owner a) (a_repo a))
               (download_issues W (a_owner a) (a_repo a) (a_token a)) ;;
   let issues :=
     match a_limit_issues a with
     | Some limit => slice_to issues limit
     | None => issues
     end in
   io_lift (EvMkdir (a_output_dir a)) (mkdir W (a_output_dir a)) ;;
   io_lift (EvMkdir (path_join (a_output_dir a) "infer_logs"))
           (mkdir W (path_join (a_output_dir a) "infer_logs")) ;;
   checkout_output <- io_lift (EvCheckOutput (clone_argv a)) (check_output W (clone_argv a)) ;;
   if contains "fatal" checkout_output
   then io_raise (RuntimeError ("Failed to clone repository: " ++ checkout_output))
   else
   rev <- io_lift (EvCheckOutput (rev_parse_argv a)) (check_output W (rev_parse_argv a)) ;;
   let base_commit := strip rev in
   let output_file := path_join (a_output_dir a) "output.jsonl" in
   finished_numbers <-
     (if path_exists W output_file
      then io_lift (EvReadLines output_file) (load_finished (read_lines W output_file) [])
      else io_ret []) ;;
   io_log (EvOpenAppend output_file) ;;
   let new_issues := filter_finished issues finished_numbers in
   let tasks := map (make_task a base_commit) issues in
   io_ret {| p_issues := issues;
             p_base_commit := base_commit;
             p_output_file := output_file;
             p_finished_numbers := finished_numbers;
             p_new_issues := new_issues;
             p_tasks := tasks |})%io.

(** *** The gather

    The [asyncio.gather] over one [run_with_semaphore(task)] per task is a
    transition system.  Every wrapper starts [Waiting] on the semaphore.  A
    scheduling choice names a wrapper: a [Waiting] one acquires the
    semaphore if its value is positive and becomes [Running]; a [Running]
    one runs its pipeline to the end, releases the semaphore and is
    [Finished].  The first exception a wrapper ends with is the one
    [gather] raises. *)
Inductive slot : Type := Waiting | Running | Finished.

Record pool : Type := {
  sem : nat;
  slots : list slot;
  failure : option exn;
  trace : list event
}.

Fixpoint set_slot (l : list slot) (i : nat) (s : slot) : list slot :=
  match l, i with
  | [], _ => []
  | _ :: r, O => s :: r
  | x :: r, S i' => x :: set_slot r i' s
  end.

Definition first_failure (old : option exn) (e : exn) : option exn :=
  match old with
  | Some e0 => Some e0
  | None => Some e
  end.

Definition step (tasks : list Task) (p : pool) (i : nat) : pool :=
  match nth_error (slots p) i, nth_error tasks i with
  | Some Waiting, Some _ =>
      match sem p with
      | O => p
      | S v =>
          {| sem := v;
             slots := set_slot (slots p) i Running;
             failure := failure p;
             trace := (trace p ++ [EvAcquire i])%list |}
      end
  | Some Running, Some t =>
      let (r, evs) := run_task t in
      {| sem := S (sem p);
         slots := set_slot (slots p) i Finished;
         failure := match r with
                    | Ok _ => failure p
                    | Raise e => first_failure (failure p) e
                    end;
         trace := (trace p ++ evs ++ [EvRelease i])%list |}
  | _, _ => p
  end.

Definition start_pool (num_workers : nat) (tasks : list Task) : pool :=
  {| sem := num_workers;
     slots := map (fun _ => Waiting) tasks;
     failure := None;
     trace := [] |}.

Definition run_schedule (tasks : list Task) (p : pool) (schedule : list nat) : pool :=
  fold_left (step tasks) schedule p.

Definition is_finished (s : slot) : bool :=
  match s with Finished => true | _ => false end.

Definition is_running (s : slot) : bool :=
  match s with Running => true | _ => false end.

(** The pipelines that hold the semaphore. *)
Definition in_flight (p : pool) : nat := List.length (filter is_running (slots p)).

(** How a call stands after a schedule: it returned, it raised, or it is
    still waiting for pipelines the schedule has not run. *)
Inductive status : Type :=
| Returned
| Raised (e : exn)
| Suspended.

Record Run : Type := {
  run_status : status;
  run_trace : list event
}.

Definition resolve_issues (a : Args) (schedule : list nat) : Run :=
  match prepare a with
  | (Raise e, t) => {| run_status := Raised e; run_trace := t |}
  | (Ok plan, t) =>
      if a_num_workers a <? 0
      then {| run_status := Raised (ValueError "Semaphore initial value must be >= 0");
              run_trace := t |}
      else
        let p := run_schedule (p_tasks plan)
                   (start_pool (Z.to_nat (a_num_workers a)) (p_tasks plan)) schedule in
        match failure p with
        | Some e => {| run_status := Raised e; run_trace := (t ++ trace p)%list |}
        | None =>
            if forallb is_finished (slots p)
            then {| run_status := Returned;
                    run_trace := (t ++ trace p ++ [EvClose (p_output_file plan)])%list |}
            else {| run_status := Suspended; run_trace := (t ++ trace p)%list |}
        end
  end.

(** *** The command line *)

Record CmdLine : Type := {
  arg_repo : string;
  arg_token : option string;
  arg_username : option string;
  arg_runtime_container_image : string;
  arg_agent_class : string;
  arg_max_iterations : Z;
  arg_limit_issues : option Z;
  arg_num_workers : Z;
  arg_workspace_dir : string;
  arg_output_dir : string;
  arg_llm_model : option string;
  arg_llm_api_key : option string
}.

(** The truth value of a [str] or [None]. *)
Definition truthy (x : option string) : bool :=
  match x with
  | Some s => negb (String.eqb s "")
  | None => false
  end.

(** [x or os.environ[key]] *)
Definition or_environ (x : option string) (key : string) : result string :=
  match x with
  | Some s =>
      if negb (String.eqb s "") then Ok s
      else match getenv W key with
           | Some v => Ok v
           | None => Raise (KeyError key)
           end
  | None =>
      match getenv W key with
      | Some v => Ok v
      | None => Raise (KeyError key)
      end
  end.

Definition raised (e : exn) : Run := {| run_status := Raised e; run_trace := [] |}.

(** The [if __name__ == "__main__":] block, after [parser.parse_args()]. *)
Definition main (my_args : CmdLine) (schedule : list nat) : Run :=
  match split_on "/" (arg_repo my_args) with
  | [owner; repo] =>
      let token :=
        if truthy (arg_token my_args) then arg_token my_args
        else getenv W "GITHUB_TOKEN" in
      let username :=
        if truthy (arg_username my_args) then arg_username my_args
        else getenv W "GITHUB_USERNAME" in
      match token with
      | Some tok =>
          if String.eqb tok "" then raised (ValueError "Github token is required.")
          else if path_exists W (arg_output_dir my_args)
          then raised (ValueError ("Output directory " ++ arg_output_dir my_args
                                   ++ " already exists, remove it or specify a different one."))
          else
            match or_environ (arg_llm_model my_args) "LLM_MODEL" with
            | Raise e => raised e
            | Ok llm_model =>
                match or_environ (arg_llm_api_key my_args) "LLM_API_KEY" with
                | Raise e => raised e
                | Ok llm_api_key =>
                    resolve_issues
                      {| a_owner := owner;
                         a_repo := repo;
                         a_token := tok;
                         a_username := username;
                         a_max_iterations := arg_max_iterations my_args;
                         a_limit_issues := arg_limit_issues my_args;
                         a_num_workers := arg_num_workers my_args;
                         a_output_dir := arg_output_dir my_args;
                         a_llm_config := {| model := llm_model; api_key := llm_api_key |};
                         a_runtime_container_image := arg_runtime_container_image my_args |}
                      schedule
                end
            end
      | None => raised (ValueError "Github token is required.")
      end
  | [_] => raised (ValueError "not enough values to unpack (expected 2, got 1)")
  | _ => raised (ValueError "too many values to unpack (expected 2)")
  end.

End Resolver.

(** ** Scripted worlds

    Worlds in which every collaborator follows a script, to run the
    functions above on concrete inputs. *)

Module Scripted.

(** A sandbox that answers with the next observation of a list, and with a
    successful empty output once the list is used up. *)
Definition next_observation (rt : list Observation) (a : CmdRunAction)
  : Observation * list Observation :=
  match rt with
  | o :: rest => (o, rest)
  | [] => (CmdOutputObservation 0 "", [])
  end.

Record Script : Type := {
  s_issues : list GithubIssue;
  (** the files that exist, each with its lines *)
  s_files : list (string * list string);
  (** the directories that exist *)
  s_dirs : list string;
  (** the observations of the sandbox created for a session id *)
  s_sandbox : string -> list Observation;
  (** what the controller ends with, by the instruction it is given *)
  s_controller : string -> result (option State);
  (** what the inference service answers, by the prompt *)
  s_oracle : string -> result (option string);
  s_env : string -> option string
}.

Fixpoint lookup {A} (key : string) (l : list (string * A)) : option A :=
  match l with
  | [] => None
  | (k, v) :: rest => if String.eqb k key then Some v else lookup key rest
  end.

Definition world (s : Script) : World :=
  {| Runtime := list Observation;
     run_action := next_observation;
     create_runtime := fun _ sid => Ok (s_sandbox s sid);
     run_controller := fun _ task_str rt => (s_controller s task_str, rt);
     completion := fun _ prompt _ => s_oracle s prompt;
     copytree := fun _ _ => Ok tt;
     abspath := fun p => path_join "/home/user" p;
     download_issues := fun _ _ _ => Ok (s_issues s);
     mkdir := fun _ => Ok tt;
     check_output := fun argv =>
       match argv with
       | "git" :: _ => Ok ""
       | _ => Ok ("0a1b2c3" ++ newline)
       end;
     path_exists := fun p =>
       match lookup p (s_files s) with
       | Some _ => true
       | None => existsb (String.eqb p) (s_dirs s)
       end;
     read_lines := fun p =>
       match lookup p (s_files s) with
       | Some lines => lines
       | None => []
       end;
     getenv := s_env s;
     float_eq_int := fun _ _ => false |}.

Definition issue (n : Z) (text : string) : GithubIssue :=
  {| owner := "acme"; repo := "widgets"; number := n;
     title := "Issue " ++ str_of_int n; body := text |}.

Definition three_issues : list GithubIssue :=
  [issue 1 "first"; issue 2 "second"; issue 3 "third"].

Definition done_state : State :=
  {| history := [ {| message := "Running command: pytest"; detail := "CmdRunAction" |};
                  {| message := "All done."; detail := "AgentFinishAction" |} ];
     metrics := None;
     last_error := None |}.

(** The answer [{"success": true, "explanation": "ok"}]. *)
Definition good_answer : string :=
  "{" ++ quoted "success" ++ ": true, " ++ quoted "explanation" ++ ": " ++ quoted "ok" ++ "}".

(** The answer [{"success": true}]: well-formed JSON without an explanation. *)
Definition answer_without_explanation : string :=
  "{" ++ quoted "success" ++ ": true}".

(** A ledger line [{"number": n}]. *)
Definition number_line (n : Z) : string :=
  "{" ++ quoted "number" ++ ": " ++ str_of_int n ++ "}" ++ newline.

(** A ledger line whose fields other than [number] are not those of a
    record: [{"number": 1, "patch": 12, "extra": [null]}]. *)
Definition drifted_line : string :=
  "{" ++ quoted "number" ++ ": 1, " ++ quoted "patch" ++ ": 12, "
      ++ quoted "extra" ++ ": [null]}" ++ newline.

(** A ledger line cut short after its number: an object that opens with
    the number 7 and breaks off inside the string of its title. *)
Definition truncated_line : string :=
  "{" ++ quoted "number" ++ ": 7, " ++ quoted "title" ++ ": " ++ dquote ++ "x".

Definition llm : LLMConfig := {| model := "gpt"; api_key := "key" |}.

Definition args (num_workers : Z) : Args :=
  {| a_owner := "acme";
     a_repo := "widgets";
     a_token := "t0ken";
     a_username := Some "bot";
     a_max_iterations := 30;
     a_limit_issues := None;
     a_num_workers := num_workers;
     a_output_dir := "output";
     a_llm_config := llm;
     a_runtime_container_image := "image" |}.

(** Every sandbox and the agent succeed at once with the diff [fixed_diff];
    the service answers [good_answer]; the store holds the numbers 1 and 2. *)
Definition fixed_diff : string := "diff --git a/f b/f".

Definition resumed : Script :=
  {| s_issues := three_issues;
     s_files := [("output/output.jsonl", [number_line 1; number_line 2])];
     s_dirs := ["output"];
     s_sandbox := fun _ =>
       [CmdOutputObservation 0 ""; CmdOutputObservation 0 "";
        CmdOutputObservation 0 ""; CmdOutputObservation 0 "";
        CmdOutputObservation 0 ""; CmdOutputObservation 0 "";
        CmdOutputObservation 0 (fixed_diff ++ newline)];
     s_controller := fun _ => Ok (Some done_state);
     s_oracle := fun _ => Ok (Some good_answer);
     s_env := fun _ => None |}.

(** A fresh run over the three issues in which the agent of the first
    issue does not come back with a state. *)
Definition first_fails : Script :=
  {| s_issues := three_issues;
     s_files := [];
     s_dirs := [];
     s_sandbox := fun _ => [];
     s_controller := fun task_str =>
       if String.eqb task_str (get_instruction (issue 1 "first")) then Ok None
       else Ok (Some done_state);
     s_oracle := fun _ => Ok (Some good_answer);
     s_env := fun _ => None |}.

(** A world whose inference service answers [text] to every prompt. *)
Definition answering (text : string) : Script :=
  {| s_issues := three_issues;
     s_files := [];
     s_dirs := [];
     s_sandbox := fun _ => [];
     s_controller := fun _ => Ok (Some done_state);
     s_oracle := fun _ => Ok (Some text);
     s_env := fun _ => None |}.

(** The records a trace writes, by issue number. *)
Definition written_numbers (t : list event) : list Z :=
  flat_map (fun ev => match ev with
                      | EvWrite r => [number (out_issue r)]
                      | _ => []
                      end) t.

(** The schedule that runs the tasks [0 .. n-1] one after the other. *)
Definition one_by_one (n : nat) : list nat :=
  flat_map (fun i => [i; i]) (seq 0 n).

Definition command_line : CmdLine :=
  {| arg_repo := "acme/widgets";
     arg_token := None;
     arg_username := Some "bot";
     arg_runtime_container_image := "image";
     arg_agent_class := "CodeActAgent";
     arg_max_iterations := 30;
     arg_limit_issues := None;
     arg_num_workers := 1;
     arg_workspace_dir := "workspace";
     arg_output_dir := "output";
     arg_llm_model := Some "gpt";
     arg_llm_api_key := Some "key" |}.

(** A sandbox whose diff fails twice, by exit code and by error
    observation, and then succeeds. *)
Definition flaky : list Observation :=
  [CmdOutputObservation 1 "fatal: bad revision";
   ErrorObservation "connection reset";
   CmdOutputObservation 0 (" diff --git a/f b/f" ++ newline)].

Definition quiet : World := world (answering good_answer).

Definition flaky_trace : list event := snd (diff_loop quiet 5 "0a1b2c3" 0 flaky).

(** A sandbox that stages without trouble, fails the first diff and then
    reports an empty diff. *)
Definition unchanged : list Observation :=
  [CmdOutputObservation 0 ""; CmdOutputObservation 0 "";
   CmdOutputObservation 0 ""; CmdOutputObservation 0 "";
   CmdOutputObservation 128 "index.lock exists";
   CmdOutputObservation 0 ""].

Definition unchanged_trace : list event := snd (complete_runtime quiet "0a1b2c3" unchanged).

Definition three_tasks : list Task := map (make_task (args 2) "0a1b2c3") three_issues.

Definition first_task : Task := make_task (args 1) "0a1b2c3" (issue 1 "first").

Definition command_line_with_token : CmdLine :=
  {| arg_repo := "acme/widgets";
     arg_token := Some "t0ken";
     arg_username := Some "bot";
     arg_runtime_container_image := "image";
     arg_agent_class := "CodeActAgent";
     arg_max_iterations := 30;
     arg_limit_issues := None;
     arg_num_workers := 1;
     arg_workspace_dir := "workspace";
     arg_output_dir := "output";
     arg_llm_model := Some "gpt";
     arg_llm_api_key := Some "key" |}.

End Scripted.


(** ** The vocabulary of the statements *)

(** A diff attempt that did not produce the patch: a non-zero exit code, or
    an error observation. *)
Definition failed (o : Observation) : Prop :=
  match o with
  | CmdOutputObservation exit_code _ => exit_code <> 0
  | ErrorObservation _ => True
  | OtherObservation _ => False
  end.

(** The commands a trace sent to the sandbox, each with its observation. *)
Definition attempts (t : list event) : list (CmdRunAction * Observation) :=
  flat_map (fun ev => match ev with
                      | EvAction a o => [(a, o)]
                      | _ => []
                      end) t.

(** How a run of the diff loop from pass [n] on can look: the trace it
    leaves and what it returns. *)
Inductive loop_run (base_commit : string) : Z -> list event -> result (option string) -> Prop :=
| loop_exit n :
    5 <= n ->
    loop_run base_commit n [] (Ok None)
| loop_patch n content :
    n < 5 ->
    loop_run base_commit n
      [EvAction (diff_action base_commit n) (CmdOutputObservation 0 content)]
      (Ok (Some (strip content)))
| loop_retry n o t r :
    n < 5 -> failed o ->
    loop_run base_commit (n + 1) t r ->
    loop_run base_commit n (EvAction (diff_action base_commit n) o :: EvSleep 10 :: t) r
| loop_unexpected n class_name :
    n < 5 ->
    loop_run base_commit n
      [EvAction (diff_action base_commit n) (OtherObservation class_name)]
      (Raise (ValueError ("Unexpected observation type: " ++ class_name))).


Definition is_write (ev : event) : bool :=
  match ev with
  | EvWrite _ => true
  | _ => false
  end.

(** A command is a diff of the staged changes when it starts as the one the
    extractor sends. *)
Definition is_diff (a : CmdRunAction) : bool := starts_with "git diff" (command a).

(** The four commands [complete_runtime] sends before the diff loop. *)
Definition staging_commands : list string :=
  ["cd /workspace"; pager_command;
   "git config --global --add safe.directory /workspace"; "git add -A"].

(** Every event a computation logs satisfies [P]. *)
Definition sb_all (W : World) (P : event -> Prop) {A} (m : Sandbox (Runtime W) A) : Prop :=
  forall rt, Forall P (snd (m rt)).

Definition io_all (P : event -> Prop) {A} (m : IO A) : Prop := Forall P (snd m).

Definition is_waiting (s : slot) : bool :=
  match s with Waiting => true | _ => false end.

Definition count (f : slot -> bool) (l : list slot) : nat := List.length (filter f l).

(** A pipeline that ended with an exception leaves the gather failed. *)
Definition failures_kept (W : World) (tasks : list Task) (p : pool) : Prop :=
  forall i task e evs,
    nth_error (slots p) i = Some Finished ->
    nth_error tasks i = Some task ->
    run_task W task = (Raise e, evs) ->
    failure p <> None.

(** The exception of a failed gather is one a pipeline ended with. *)
Definition failures_real (W : World) (tasks : list Task) (p : pool) : Prop :=
  forall e, failure p = Some e ->
            exists j task evs, nth_error tasks j = Some task /\
                               run_task W task = (Raise e, evs).



(** ** Properties *)

(** *** The fuel of the text functions *)

Section Fuel.

Local Open Scope nat_scope.

Lemma skip_ws_length (s : string) : String.length (skip_ws s) <= String.length s.
Proof.
  induction s as [|c s IH]; cbn; [lia|]. destruct (is_ws c); cbn; lia.
Qed.

Lemma push_length {A} (a : A) (r : option (list A * string)) (l : list A) (rest : string) :
  push a r = Some (l, rest) -> exists l', r = Some (l', rest).
Proof. destruct r as [[l' rest']|]; cbn; [|discriminate]. intros [= <- <-]. now exists l'. Qed.

Lemma scan_pieces_length (s : string) :
  forall ps r, scan_pieces s = Some (ps, r) -> String.length r < String.length s.
Proof.
  induction s as [s IH] using (well_founded_induction
                                 (Wf_nat.well_founded_ltof _ String.length)).
  unfold Wf_nat.ltof in IH.
  intros ps r H. destruct s as [|c rest]; [discriminate|]. cbn [scan_pieces] in H.
  destruct (Ascii.eqb c (chr 34)).
  { inversion H; subst. cbn. lia. }
  destruct (Ascii.eqb c (chr 92)).
  { destruct rest as [|e rest1]; [discriminate|].
    destruct (Ascii.eqb e "u").
    - destruct rest1 as [|h1 [|h2 [|h3 [|h4 rest2]]]]; try discriminate.
      destruct (hex4 h1 h2 h3 h4); [|discriminate].
      apply push_length in H. destruct H as [l' H].
      apply IH in H; cbn in *; lia.
    - destruct (simple_escape e); [|discriminate].
      apply push_length in H. destruct H as [l' H].
      apply IH in H; cbn in *; lia. }
  destruct (N_of_ascii c <? 32)%N; [discriminate|].
  apply push_length in H. destruct H as [l' H].
  apply IH in H; cbn in *; lia.
Qed.

Lemma scan_string_length (s : string) key r :
  scan_string s = Some (key, r) -> String.length r < String.length s.
Proof.
  unfold scan_string. destruct (scan_pieces s) as [[ps rest]|] eqn:E; [|discriminate].
  intros [= _ <-]. eapply scan_pieces_length; eassumption.
Qed.

Lemma span_digits_length (s : string) :
  String.length (snd (span_digits s)) <= String.length s.
Proof.
  induction s as [|c s IH]; cbn; [lia|].
  destruct (is_digit c); [|cbn; lia].
  destruct (span_digits s) as [d rest]. cbn in *. lia.
Qed.

Lemma drop_length (n : nat) : forall s, String.length (drop n s) <= String.length s.
Proof.
  induction n as [|n IH]; intros [|c s]; cbn; try lia. specialize (IH s). lia.
Qed.

Lemma drop_S_length (n : nat) (s : string) :
  s <> "" -> String.length (drop (S n) s) < String.length s.
Proof.
  destruct s as [|c s]; [congruence|]. intros _. cbn. pose proof (drop_length n s). lia.
Qed.

Lemma scan_number_length (s : string) v r :
  scan_number s = Some (v, r) -> String.length r < String.length s.
Proof.
  unfold scan_number.
  destruct (scan_integer s) as [[i r0]|] eqn:Hi; [|discriminate].
  assert (H0 : String.length r0 < String.length s).
  { unfold scan_integer in Hi.
    destruct s as [|c s']; [discriminate|].
    destruct (Ascii.eqb c "-").
    - destruct s' as [|c' s'']; [discriminate|].
      destruct (Ascii.eqb c' "0"); [inversion Hi; subst; cbn; lia|].
      destruct (is_digit c') eqn:Hd; [|discriminate].
      pose proof (span_digits_length (String c' s'')) as Hs.
      cbn [span_digits] in Hi, Hs. rewrite Hd in Hi, Hs.
      destruct (span_digits s'') as [d rest]. inversion Hi; subst. cbn in *. lia.
    - destruct (Ascii.eqb c "0"); [inversion Hi; subst; cbn; lia|].
      destruct (is_digit c) eqn:Hd; [|discriminate].
      pose proof (span_digits_length s') as Hs.
      cbn [span_digits] in Hi. rewrite Hd in Hi.
      destruct (span_digits s') as [d rest]. inversion Hi; subst. cbn in *. lia. }
  assert (H1 : String.length (snd (scan_frac r0)) <= String.length r0).
  { unfold scan_frac. destruct r0 as [|c r']; [cbn; lia|].
    destruct (Ascii.eqb c "."); [|cbn; lia].
    pose proof (span_digits_length r') as Hs.
    destruct (span_digits r') as [d rest]. destruct (String.eqb d ""); cbn in *; lia. }
  destruct (scan_frac r0) as [f r1]. cbn [snd] in H1.
  assert (H2 : String.length (snd (scan_exp r1)) <= String.length r1).
  { unfold scan_exp. destruct r1 as [|c r']; [cbn; lia|].
    destruct (Ascii.eqb c "e" || Ascii.eqb c "E"); [|cbn; lia].
    destruct r' as [|x r''].
    - cbn. lia.
    - destruct (Ascii.eqb x "+" || Ascii.eqb x "-").
      + pose proof (span_digits_length r'') as Hs.
        destruct (span_digits r'') as [d rest]. destruct (String.eqb d ""); cbn in *; lia.
      + pose proof (span_digits_length (String x r'')) as Hs.
        destruct (span_digits (String x r'')) as [d rest].
        destruct (String.eqb d ""); cbn in *; lia. }
  destruct (scan_exp r1) as [e r2]. cbn [snd] in H2.
  destruct (String.eqb f "" && String.eqb e ""); intros [= _ <-]; lia.
Qed.

Lemma scan_literal_length (s : string) v r :
  scan_literal s = Some (v, r) -> String.length r < String.length s.
Proof.
  intros H.
  assert (Hne : s <> "") by (intros ->; discriminate).
  unfold scan_literal in H.
  destruct (starts_with "null" s);
    [replace r with (drop 4 s) by congruence; now apply drop_S_length|].
  destruct (starts_with "true" s);
    [replace r with (drop 4 s) by congruence; now apply drop_S_length|].
  destruct (starts_with "false" s);
    [replace r with (drop 5 s) by congruence; now apply drop_S_length|].
  destruct (scan_number s) as [[v' r']|] eqn:Hn.
  { inversion H; subst. eapply scan_number_length; eassumption. }
  destruct (starts_with "NaN" s);
    [replace r with (drop 3 s) by congruence; now apply drop_S_length|].
  destruct (starts_with "Infinity" s);
    [replace r with (drop 8 s) by congruence; now apply drop_S_length|].
  destruct (starts_with "-Infinity" s);
    [replace r with (drop 9 s) by congruence; now apply drop_S_length|].
  discriminate.
Qed.

Lemma scan_consumes (fuel : nat) :
  (forall s v r, scan_once fuel s = Some (v, r) -> String.length r < String.length s) /\
  (forall s ps r, scan_pairs fuel s = Some (ps, r) -> String.length r < String.length s) /\
  (forall s xs r, scan_items fuel s = Some (xs, r) -> String.length r < String.length s).
Proof.
  induction fuel as [|f (IHo & IHp & IHi)]; [repeat split; discriminate|].
  repeat split.
  - intros s v r H. cbn [scan_once] in H.
    destruct s as [|c rest]; [discriminate|].
    destruct (Ascii.eqb c (chr 34)).
    { destruct (scan_string rest) as [[str r']|] eqn:E; [|discriminate].
      inversion H; subst. apply scan_string_length in E. cbn. lia. }
    destruct (Ascii.eqb c "{").
    { pose proof (skip_ws_length rest) as Hw.
      destruct (skip_ws rest) as [|c1 r1]; [discriminate|].
      destruct (Ascii.eqb c1 "}"); [inversion H; subst; cbn in *; lia|].
      destruct (scan_pairs f (String c1 r1)) as [[ps r']|] eqn:E; [|discriminate].
      inversion H; subst. apply IHp in E. cbn in *. lia. }
    destruct (Ascii.eqb c "[").
    { pose proof (skip_ws_length rest) as Hw.
      destruct (skip_ws rest) as [|c1 r1]; [discriminate|].
      destruct (Ascii.eqb c1 "]"); [inversion H; subst; cbn in *; lia|].
      destruct (scan_items f (String c1 r1)) as [[xs r']|] eqn:E; [|discriminate].
      inversion H; subst. apply IHi in E. cbn in *. lia. }
    now apply scan_literal_length in H.
  - intros s ps r H. cbn [scan_pairs] in H.
    destruct s as [|c rest]; [discriminate|].
    destruct (Ascii.eqb c (chr 34)); [|discriminate].
    destruct (scan_string rest) as [[key r1]|] eqn:E1; [|discriminate].
    apply scan_string_length in E1.
    pose proof (skip_ws_length r1) as Hw1.
    destruct (skip_ws r1) as [|c2 r2]; [discriminate|].
    destruct (Ascii.eqb c2 ":"); [|discriminate].
    pose proof (skip_ws_length r2) as Hw2.
    destruct (scan_once f (skip_ws r2)) as [[v r3]|] eqn:E3; [|discriminate].
    apply IHo in E3.
    pose proof (skip_ws_length r3) as Hw3.
    destruct (skip_ws r3) as [|c4 r4]; [discriminate|].
    destruct (Ascii.eqb c4 "}"); [inversion H; subst; cbn in *; lia|].
    destruct (Ascii.eqb c4 ","); [|discriminate].
    apply push_length in H. destruct H as [l' H]. apply IHp in H.
    pose proof (skip_ws_length r4) as Hw4. cbn in *. lia.
  - intros s xs r H. cbn [scan_items] in H.
    destruct (scan_once f s) as [[v r1]|] eqn:E1; [|discriminate].
    apply IHo in E1.
    pose proof (skip_ws_length r1) as Hw1.
    destruct (skip_ws r1) as [|c2 r2]; [discriminate|].
    destruct (Ascii.eqb c2 "]"); [inversion H; subst; cbn in *; lia|].
    destruct (Ascii.eqb c2 ","); [|discriminate].
    apply push_length in H. destruct H as [l' H]. apply IHi in H.
    pose proof (skip_ws_length r2) as Hw2. cbn in *. lia.
Qed.

(** More fuel than a text needs does not change how it is read. *)
Lemma scan_fuel (fuel : nat) :
  (forall s fuel', 2 * String.length s <= fuel -> fuel <= fuel' ->
                   scan_once fuel' s = scan_once fuel s) /\
  (forall s fuel', 2 * String.length s + 1 <= fuel -> fuel <= fuel' ->
                   scan_pairs fuel' s = scan_pairs fuel s) /\
  (forall s fuel', 2 * String.length s + 1 <= fuel -> fuel <= fuel' ->
                   scan_items fuel' s = scan_items fuel s).
Proof.
  induction fuel as [|f (IHo & IHp & IHi)].
  - repeat split; intros s fuel' Hs Hf; try lia.
    destruct s; [|cbn in Hs; lia]. destruct fuel'; reflexivity.
  - repeat split; intros s [|f'] Hs Hf; try lia.
    + cbn [scan_once]. destruct s as [|c rest]; [reflexivity|].
      destruct (Ascii.eqb c (chr 34)); [reflexivity|].
      pose proof (skip_ws_length rest) as Hw.
      destruct (Ascii.eqb c "{").
      { destruct (skip_ws rest) as [|c1 r1]; [reflexivity|].
        destruct (Ascii.eqb c1 "}"); [reflexivity|].
        rewrite (IHp (String c1 r1) f'); [reflexivity | cbn in *; lia | lia]. }
      destruct (Ascii.eqb c "[").
      { destruct (skip_ws rest) as [|c1 r1]; [reflexivity|].
        destruct (Ascii.eqb c1 "]"); [reflexivity|].
        rewrite (IHi (String c1 r1) f'); [reflexivity | cbn in *; lia | lia]. }
      reflexivity.
    + cbn [scan_pairs]. destruct s as [|c rest]; [reflexivity|].
      destruct (Ascii.eqb c (chr 34)); [|reflexivity].
      destruct (scan_string rest) as [[key r1]|] eqn:E1; [|reflexivity].
      apply scan_string_length in E1.
      pose proof (skip_ws_length r1) as Hw1.
      destruct (skip_ws r1) as [|c2 r2]; [reflexivity|].
      destruct (Ascii.eqb c2 ":"); [|reflexivity].
      pose proof (skip_ws_length r2) as Hw2.
      rewrite (IHo (skip_ws r2) f'); [|cbn in *; lia | lia].
      destruct (scan_once f (skip_ws r2)) as [[v r3]|] eqn:E3; [|reflexivity].
      apply (proj1 (scan_consumes f)) in E3.
      pose proof (skip_ws_length r3) as Hw3.
      destruct (skip_ws r3) as [|c4 r4]; [reflexivity|].
      destruct (Ascii.eqb c4 "}"); [reflexivity|].
      destruct (Ascii.eqb c4 ","); [|reflexivity].
      pose proof (skip_ws_length r4) as Hw4.
      rewrite (IHp (skip_ws r4) f'); [reflexivity | cbn in *; lia | lia].
    + cbn [scan_items].
      rewrite (IHo s f'); [|lia | lia].
      destruct (scan_once f s) as [[v r1]|] eqn:E1; [|reflexivity].
      apply (proj1 (scan_consumes f)) in E1.
      pose proof (skip_ws_length r1) as Hw1.
      destruct (skip_ws r1) as [|c2 r2]; [reflexivity|].
      destruct (Ascii.eqb c2 "]"); [reflexivity|].
      destruct (Ascii.eqb c2 ","); [|reflexivity].
      pose proof (skip_ws_length r2) as Hw2.
      rewrite (IHi (skip_ws r2) f'); [reflexivity | cbn in *; lia | lia].
Qed.

(** The fuel [loads] gives the scanner is enough: with any larger amount
    the text is read the same way. *)
Lemma loads_fuel (s : string) (fuel : nat) :
  2 * String.length s + 2 <= fuel ->
  scan_once fuel (skip_ws s) = scan_once (2 * String.length s + 2) (skip_ws s).
Proof.
  intros H. pose proof (skip_ws_length s) as Hw.
  apply (proj1 (scan_fuel (2 * String.length s + 2))); lia.
Qed.

(** The fuel of [strip] is enough as well: every pass drops a character. *)
Lemma drop_while_fuel (width : list N -> nat) (fuel : nat) :
  width [] = 0 ->
  forall l fuel', List.length l <= fuel -> fuel <= fuel' ->
                  drop_while width fuel' l = drop_while width fuel l.
Proof.
  intros Hw. induction fuel as [|f IH]; intros l fuel' Hl Hf.
  - destruct l; [|cbn in Hl; lia]. destruct fuel'; cbn; [reflexivity|now rewrite Hw].
  - destruct fuel' as [|f']; [lia|]. cbn [drop_while].
    destruct (width l) as [|k] eqn:Hk; [reflexivity|].
    apply IH; [|lia].
    destruct l as [|x l]; [congruence|]. cbn [skipn List.length] in *.
    pose proof (length_skipn k l). lia.
Qed.

End Fuel.

(** *** The diff loop *)

Section DiffLoop.

Context (W : World).

Lemma diff_loop_runs (base : string) (fuel : nat) :
  forall n rt r rt' t,
    5 - n <= Z.of_nat fuel ->
    diff_loop W fuel base n rt = (r, rt', t) ->
    loop_run base n t r.
Proof.
  induction fuel as [|fuel IH]; intros n rt r rt' t Hfuel Hrun.
  - cbn in Hrun. inversion Hrun; subst. apply loop_exit. lia.
  - rewrite Nat2Z.inj_succ in Hfuel.
    cbn [diff_loop] in Hrun. destruct (n <? 5) eqn:Hn.
    + apply Z.ltb_lt in Hn.
      unfold sb_bind, run in Hrun.
      destruct (run_action W rt (diff_action base n)) as [obs rt1] eqn:Hobs.
      destruct obs as [code content|content|cls].
      * destruct (code =? 0) eqn:Hcode.
        -- apply Z.eqb_eq in Hcode. subst code.
           cbn in Hrun. inversion Hrun; subst. now apply loop_patch.
        -- apply Z.eqb_neq in Hcode.
           unfold sleep in Hrun. cbn in Hrun.
           destruct (diff_loop W fuel base (n + 1) rt1) as [[r2 rt2] t2] eqn:Hrest.
           inversion Hrun; subst. cbn.
           apply loop_retry; [assumption | exact Hcode |].
           eapply IH; [|exact Hrest]. lia.
      * unfold sleep in Hrun. cbn in Hrun.
        destruct (diff_loop W fuel base (n + 1) rt1) as [[r2 rt2] t2] eqn:Hrest.
        inversion Hrun; subst. cbn.
        apply loop_retry; [assumption | exact I |].
        eapply IH; [|exact Hrest]. lia.
      * cbn in Hrun. inversion Hrun; subst. now apply loop_unexpected.
    + apply Z.ltb_ge in Hn. cbn in Hrun. inversion Hrun; subst. now apply loop_exit.
Qed.

(** The fuel of [diff_loop] is never what ends the loop: any two amounts
    that cover the passes left give the same run. *)
Lemma diff_loop_fuel (base : string) (fuel : nat) :
  forall fuel' n rt,
    5 - n <= Z.of_nat fuel -> 5 - n <= Z.of_nat fuel' ->
    diff_loop W fuel base n rt = diff_loop W fuel' base n rt.
Proof.
  induction fuel as [|fuel IH]; intros fuel' n rt H H'.
  - destruct fuel' as [|fuel']; [reflexivity|].
    cbn [diff_loop]. replace (n <? 5) with false; [reflexivity|].
    symmetry. apply Z.ltb_ge. change (Z.of_nat 0) with 0 in H. lia.
  - destruct fuel' as [|fuel'].
    + cbn [diff_loop]. replace (n <? 5) with false; [reflexivity|].
      symmetry. apply Z.ltb_ge. change (Z.of_nat 0) with 0 in H'. lia.
    + rewrite Nat2Z.inj_succ in H, H'.
      cbn [diff_loop]. destruct (n <? 5) eqn:Hn; [|reflexivity].
      unfold sb_bind, run.
      destruct (run_action W rt (diff_action base n)) as [obs rt1].
      destruct obs as [code content|content|cls]; [destruct (code =? 0)| |];
        try reflexivity;
        unfold sleep; cbn; rewrite (IH fuel' (n + 1) rt1) by lia; reflexivity.
Qed.

Lemma loop_run_count (base : string) n t r :
  loop_run base n t r -> Z.of_nat (List.length (attempts t)) <= Z.max 0 (5 - n).
Proof.
  induction 1; cbn [attempts flat_map List.length app]; try lia.
  change (flat_map _ t) with (attempts t).
  rewrite Nat2Z.inj_succ. lia.
Qed.

Lemma loop_run_actions (base : string) n t r :
  loop_run base n t r ->
  forall k a o, nth_error (attempts t) k = Some (a, o) ->
                a = diff_action base (n + Z.of_nat k).
Proof.
  induction 1 as [n Hn|n c Hn|n o t r Hn Hf Hrun IH|n cls Hn]; intros k a o' Hk.
  - destruct k; discriminate.
  - destruct k as [|[|k]]; cbn in Hk; try discriminate.
    inversion Hk. now rewrite Z.add_0_r.
  - destruct k as [|k]; cbn in Hk.
    + inversion Hk. now rewrite Z.add_0_r.
    + change (flat_map _ t) with (attempts t) in Hk.
      rewrite (IH _ _ _ Hk). f_equal. lia.
  - destruct k as [|[|k]]; cbn in Hk; try discriminate.
    inversion Hk. now rewrite Z.add_0_r.
Qed.

Lemma loop_run_backoff (base : string) n t r :
  loop_run base n t r ->
  forall i a o, nth_error t i = Some (EvAction a o) -> failed o ->
                nth_error t (S i) = Some (EvSleep 10).
Proof.
  induction 1 as [n Hn|n c Hn|n o t r Hn Hf Hrun IH|n cls Hn]; intros i a o' Hi Hfail.
  - destruct i; discriminate.
  - destruct i as [|[|i]]; cbn in Hi; try discriminate.
    inversion Hi; subst. cbn in Hfail. congruence.
  - destruct i as [|[|i]]; cbn in Hi; try discriminate.
    + reflexivity.
    + cbn. exact (IH _ _ _ Hi Hfail).
  - destruct i as [|[|i]]; cbn in Hi; try discriminate.
    inversion Hi; subst. destruct Hfail.
Qed.

Lemma loop_run_sleeps (base : string) n t r :
  loop_run base n t r -> forall s, In (EvSleep s) t -> s = 10.
Proof.
  induction 1 as [n Hn|n c Hn|n o t r Hn Hf Hrun IH|n cls Hn]; intros s Hs; cbn in Hs.
  - destruct Hs.
  - destruct Hs as [Hs|[]]; discriminate.
  - destruct Hs as [Hs|[Hs|Hs]]; [discriminate|congruence|auto].
  - destruct Hs as [Hs|[]]; discriminate.
Qed.

Lemma loop_run_success (base : string) n t r :
  loop_run base n t r ->
  forall i a c, nth_error t i = Some (EvAction a (CmdOutputObservation 0 c)) ->
                r = Ok (Some (strip c)) /\ List.length t = S i.
Proof.
  induction 1 as [n Hn|n c Hn|n o t r Hn Hf Hrun IH|n cls Hn]; intros i a c' Hi.
  - destruct i; discriminate.
  - destruct i as [|[|i]]; cbn in Hi; try discriminate.
    inversion Hi; subst. now split.
  - destruct i as [|[|i]]; cbn in Hi; try discriminate.
    + inversion Hi; subst. cbn in Hf. congruence.
    + destruct (IH _ _ _ Hi) as [Hr Hlen]. split; [exact Hr|]. cbn. now rewrite Hlen.
  - destruct i as [|[|i]]; cbn in Hi; discriminate.
Qed.

Lemma loop_run_exhausted (base : string) n t r :
  loop_run base n t r ->
  Forall (fun ao => failed (snd ao)) (attempts t) ->
  r = Ok None /\ Z.of_nat (List.length (attempts t)) = Z.max 0 (5 - n).
Proof.
  induction 1 as [n Hn|n c Hn|n o t r Hn Hf Hrun IH|n cls Hn]; intros Hall.
  - split; [reflexivity|]. cbn [attempts flat_map List.length]. lia.
  - cbn in Hall. inversion Hall as [|x l Hx Hl]; subst. cbn in Hx. congruence.
  - cbn in Hall. change (flat_map _ t) with (attempts t) in Hall.
    inversion Hall as [|x l Hx Hl]; subst.
    destruct (IH Hl) as [Hr Hlen]. split; [exact Hr|].
    cbn [attempts flat_map List.length app]. change (flat_map _ t) with (attempts t).
    rewrite Nat2Z.inj_succ. lia.
  - cbn in Hall. inversion Hall as [|x l Hx Hl]; subst. destruct Hx.
Qed.

Lemma loop_run_raises (base : string) n t r :
  loop_run base n t r ->
  forall e, r = Raise e ->
            exists a class_name, In (EvAction a (OtherObservation class_name)) t.
Proof.
  induction 1 as [n Hn|n c Hn|n o t r Hn Hf Hrun IH|n cls Hn]; intros e He;
    try discriminate.
  - destruct (IH e He) as (a & c & Hin). exists a, c. right. now right.
  - eexists _, _. left. reflexivity.
Qed.

(** C3: the diff step, whatever the sandbox answers.  It sends at most 5
    diff commands; the [n]-th one (from 0) is the diff against the base
    commit with timeout [600 + 100 * n]; a failed attempt (non-zero exit
    code or error observation) is followed at once by a sleep of 10
    seconds, and there is no other sleep; an attempt that exits with 0 is
    the last event of the loop and its stripped output is the patch; and
    when every attempt failed, 5 attempts were made and the loop returns
    [None] without raising. *)
Theorem diff_retry_protocol (base : string) (rt : Runtime W)
    (r : result (option string)) (rt' : Runtime W) (t : list event) :
  diff_loop W 5 base 0 rt = (r, rt', t) ->
  (List.length (attempts t) <= 5)%nat /\
  (forall n a o, nth_error (attempts t) n = Some (a, o) ->
     command a = "git diff --no-color --cached " ++ base /\
     timeout a = Some (600 + 100 * Z.of_nat n)) /\
  (forall i a o, nth_error t i = Some (EvAction a o) -> failed o ->
     nth_error t (S i) = Some (EvSleep 10)) /\
  (forall s, In (EvSleep s) t -> s = 10) /\
  (forall i a content,
     nth_error t i = Some (EvAction a (CmdOutputObservation 0 content)) ->
     r = Ok (Some (strip content)) /\ List.length t = S i) /\
  (Forall (fun ao => failed (snd ao)) (attempts t) ->
     r = Ok None /\ List.length (attempts t) = 5%nat).
Proof.
  intros Hrun.
  assert (Hloop : loop_run base 0 t r).
  { eapply diff_loop_runs; [|exact Hrun]. cbn. lia. }
  repeat split.
  - pose proof (loop_run_count _ _ _ _ Hloop). lia.
  - now rewrite (loop_run_actions _ _ _ _ Hloop _ _ _ H).
  - now rewrite (loop_run_actions _ _ _ _ Hloop _ _ _ H).
  - eapply loop_run_backoff; eassumption.
  - eapply loop_run_sleeps; eassumption.
  - eapply loop_run_success; eassumption.
  - eapply loop_run_success; eassumption.
  - now apply (loop_run_exhausted _ _ _ _ Hloop).
  - pose proof (proj2 (loop_run_exhausted _ _ _ _ Hloop H)). lia.
Qed.

(** *** complete_runtime *)

Lemma run_then (a : CmdRunAction) {A} (k : Observation -> Sandbox (Runtime W) A)
    rt r rt' t :
  sb_bind (run W a) k rt = (r, rt', t) ->
  exists obs rt1 t1,
    run_action W rt a = (obs, rt1) /\ k obs rt1 = (r, rt', t1) /\
    t = EvAction a obs :: t1.
Proof.
  unfold sb_bind, run. destruct (run_action W rt a) as [obs rt1].
  destruct (k obs rt1) as [[r1 rt2] t1] eqn:Hk. intros H. cbn in H. inversion H; subst.
  exists obs, rt1, t1. repeat split. exact Hk.
Qed.

Lemma require_then (failure : string) (obs : Observation) {A}
    (k : unit -> Sandbox (Runtime W) A) rt r rt' t :
  sb_bind (require_success W failure obs) k rt = (r, rt', t) ->
  (exists content, obs = CmdOutputObservation 0 content /\ k tt rt = (r, rt', t)) \/
  (t = [] /\ rt' = rt /\ exists e, r = Raise e).
Proof.
  unfold sb_bind, require_success.
  destruct obs as [code content|content|cls].
  - destruct (code =? 0) eqn:Hcode.
    + apply Z.eqb_eq in Hcode. subst. cbn.
      destruct (k tt rt) as [[r1 rt1] t1]. intros H. inversion H; subst.
      left. now exists content.
    + cbn. intros H. inversion H; subst. right. repeat split. now eexists.
  - cbn. intros H. inversion H; subst. right. repeat split. now eexists.
  - cbn. intros H. inversion H; subst. right. repeat split. now eexists.
Qed.

(** A run of [complete_runtime] is a prefix of the staging commands that
    ends in a failure, or all of them followed by a run of the diff loop. *)
Lemma complete_runtime_runs (base : string) rt r rt' t :
  complete_runtime W base rt = (r, rt', t) ->
  exists ts tl,
    t = (ts ++ tl)%list /\
    Forall (fun ev => exists c o, ev = EvAction (cmd c) o /\ In c staging_commands) ts /\
    ((tl = [] /\ exists e, r = Raise e) \/ loop_run base 0 tl r).
Proof.
  unfold complete_runtime. intros H.
  apply run_then in H. destruct H as (o1 & rt1 & t1 & _ & H & ->).
  apply require_then in H. destruct H as [(c1 & -> & H)|(-> & _ & He)].
  2:{ eexists [_], []. repeat split; [|now left].
      repeat constructor. eexists _, _. split; [reflexivity|]. cbn. tauto. }
  apply run_then in H. destruct H as (o2 & rt2 & t2 & _ & H & ->).
  apply require_then in H. destruct H as [(c2 & -> & H)|(-> & _ & He)].
  2:{ eexists [_; _], []. repeat split; [|now left].
      repeat constructor; eexists _, _; (split; [reflexivity|]); cbn; tauto. }
  apply run_then in H. destruct H as (o3 & rt3 & t3 & _ & H & ->).
  apply require_then in H. destruct H as [(c3 & -> & H)|(-> & _ & He)].
  2:{ eexists [_; _; _], []. repeat split; [|now left].
      repeat constructor; eexists _, _; (split; [reflexivity|]); cbn; tauto. }
  apply run_then in H. destruct H as (o4 & rt4 & t4 & _ & H & ->).
  apply require_then in H. destruct H as [(c4 & -> & H)|(-> & _ & He)].
  2:{ eexists [_; _; _; _], []. repeat split; [|now left].
      repeat constructor; eexists _, _; (split; [reflexivity|]); cbn; tauto. }
  eexists [_; _; _; _], t4. repeat split.
  - repeat constructor; eexists _, _; (split; [reflexivity|]); cbn; tauto.
  - right. eapply diff_loop_runs; [|exact H]. cbn. lia.
Qed.

(** C6: an empty diff is a patch.  If, in a run of [complete_runtime], a
    diff command exits with 0 and empty output, on whichever attempt, the
    function returns the empty patch [Some ""], which is not the missing
    patch [None]. *)
Theorem empty_diff_is_a_patch (base : string) (rt : Runtime W)
    (r : result (option string)) (rt' : Runtime W) (t : list event)
    (a : CmdRunAction) :
  complete_runtime W base rt = (r, rt', t) ->
  is_diff a = true ->
  In (EvAction a (CmdOutputObservation 0 "")) t ->
  r = Ok (Some "") /\ r <> Ok None.
Proof.
  intros Hrun Hdiff Hin.
  destruct (complete_runtime_runs _ _ _ _ _ Hrun) as (ts & tl & -> & Hts & Htl).
  apply in_app_or in Hin. destruct Hin as [Hin|Hin].
  - exfalso. rewrite Forall_forall in Hts.
    destruct (Hts _ Hin) as (c & o & Heq & Hc). inversion Heq; subst.
    cbn in Hc. destruct Hc as [<-|[<-|[<-|[<-|[]]]]]; discriminate.
  - destruct Htl as [[-> _]|Hloop]; [destruct Hin|].
    apply In_nth_error in Hin. destruct Hin as [i Hi].
    destruct (loop_run_success _ _ _ _ Hloop _ _ _ Hi) as [-> _].
    split; [reflexivity | discriminate].
Qed.

End DiffLoop.

(** *** The success classifier *)

Section Classifier.

Context (W : World).

Lemma last_item_app {A} (l : list A) (a : A) : last_item (l ++ [a]) = Ok a.
Proof.
  induction l as [|x l IH]; [reflexivity|].
  cbn [app last_item]. destruct (l ++ [a])%list eqn:E; [|exact IH].
  destruct l; discriminate.
Qed.

(** What [guess_success] does with a non-empty history: one call of the
    service with the prompt made of the issue body and the last message,
    then the reading of the answer. *)
Lemma guess_success_last (issue : GithubIssue) (h : list Event) (ev : Event)
    (cfg : LLMConfig) :
  guess_success W issue (h ++ [ev]) cfg =
  let prompt := success_prompt (body issue) (message ev) in
  (match completion W (model cfg) prompt (api_key cfg) with
   | Raise e => Raise e
   | Ok None => Raise AttributeError
   | Ok (Some text) =>
       match parse_answer (strip text) with
       | Raise JSONDecodeError =>
           Ok (JBool false,
               JString ("Failed to decode JSON from LLM response: " ++ strip text))
       | Raise e => Raise e
       | Ok verdict => Ok verdict
       end
   end,
   [EvCompletion (model cfg) prompt (api_key cfg)]).
Proof.
  unfold guess_success. rewrite last_item_app. cbn zeta.
  unfold io_bind, io_lift.
  destruct (completion W (model cfg) _ (api_key cfg)) as [[text|]|e]; try reflexivity.
  destruct (parse_answer (strip text)) as [v|[]]; reflexivity.
Qed.

(** An answer that is not JSON degrades to a negative verdict that quotes
    it. *)
Lemma guess_success_degrades (issue : GithubIssue) (h : list Event) (ev : Event)
    (cfg : LLMConfig) (text : string) :
  completion W (model cfg) (success_prompt (body issue) (message ev)) (api_key cfg)
    = Ok (Some text) ->
  loads (strip text) = Raise JSONDecodeError ->
  fst (guess_success W issue (h ++ [ev]) cfg) =
  Ok (JBool false, JString ("Failed to decode JSON from LLM response: " ++ strip text)).
Proof.
  intros Hc Hl. rewrite guess_success_last. cbn zeta. rewrite Hc.
  unfold parse_answer. rewrite Hl. reflexivity.
Qed.

(** An answer that is JSON but not an object with both keys raises. *)
Lemma guess_success_raises (issue : GithubIssue) (h : list Event) (ev : Event)
    (cfg : LLMConfig) (text : string) (v : json) :
  completion W (model cfg) (success_prompt (body issue) (message ev)) (api_key cfg)
    = Ok (Some text) ->
  loads (strip text) = Ok v ->
  (forall s e, getitem v "success" = Ok s -> getitem v "explanation" <> Ok e) ->
  exists e, fst (guess_success W issue (h ++ [ev]) cfg) = Raise e /\ e <> JSONDecodeError.
Proof.
  intros Hc Hl Hkeys. rewrite guess_success_last. cbn zeta. rewrite Hc.
  unfold parse_answer. rewrite Hl.
  assert (Hget : forall k x, getitem v k = Raise x -> x <> JSONDecodeError).
  { intros k x. unfold getitem. destruct v; try (intros [= <-]; discriminate).
    destruct (dict_get k pairs); intros [= <-]; discriminate. }
  destruct (getitem v "success") as [s|x] eqn:Hs.
  - destruct (getitem v "explanation") as [e|x] eqn:He.
    + exfalso. now apply (Hkeys s e).
    + exists x. pose proof (Hget _ _ He). destruct x; try easy.
  - exists x. pose proof (Hget _ _ Hs). destruct x; try easy.
Qed.

(** C10: the classifier reads the last event only.  With an empty history
    it raises [IndexError] and the service is not called; with a non-empty
    one the service is called once, with the prompt made of the issue body
    and the message of the last event, and neither the earlier events nor
    the rest of the last one change the outcome. *)
Theorem guess_success_reads_last_message (issue : GithubIssue) (cfg : LLMConfig) :
  guess_success W issue [] cfg = (Raise IndexError, []) /\
  (forall h ev,
     snd (guess_success W issue (h ++ [ev]) cfg) =
     [EvCompletion (model cfg) (success_prompt (body issue) (message ev)) (api_key cfg)]) /\
  (forall h h' ev ev',
     message ev = message ev' ->
     guess_success W issue (h ++ [ev]) cfg = guess_success W issue (h' ++ [ev']) cfg).
Proof.
  split; [reflexivity|]. split.
  - intros h ev. now rewrite guess_success_last.
  - intros h h' ev ev' Hm. rewrite !guess_success_last. now rewrite Hm.
Qed.

End Classifier.

(** C4, at an answer the code does not handle: the service answers with
    the JSON object that has a [success] member and no [explanation].  The
    answer is decoded, the second subscript raises [KeyError], and
    [guess_success] raises it instead of returning a negative verdict. *)
Theorem guess_success_raises_key_error :
  loads (strip Scripted.answer_without_explanation) = Ok (JObject [("success", JBool true)]) /\
  fst (guess_success (Scripted.world (Scripted.answering Scripted.answer_without_explanation))
         (Scripted.issue 1 "first") (history Scripted.done_state) Scripted.llm)
  = Raise (KeyError "explanation").
Proof. split; vm_compute; reflexivity. Qed.

(** *** The ledger scan *)

Lemma load_finished_ok (lines : list string) :
  forall (ids acc : list json),
    Forall2 (fun line n =>
               exists pairs, loads line = Ok (JObject pairs) /\
                             dict_get "number" pairs = Some n /\ hashable n = true)
            lines ids ->
    load_finished lines acc = Ok (acc ++ ids)%list.
Proof.
  induction lines as [|line lines IH]; intros ids acc H; inversion H; subst.
  - cbn. now rewrite app_nil_r.
  - destruct H2 as (pairs & Hl & Hn & Hh).
    cbn [load_finished]. rewrite Hl. cbn [getitem]. rewrite Hn, Hh.
    rewrite (IH _ _ H4). now rewrite <- app_assoc.
Qed.

Lemma load_finished_raises (lines : list string) :
  forall acc,
    Exists (fun line => loads line = Raise JSONDecodeError) lines ->
    exists e, load_finished lines acc = Raise e.
Proof.
  induction lines as [|line lines IH]; intros acc H; inversion H; subst.
  - cbn [load_finished]. rewrite H1. now eexists.
  - cbn [load_finished].
    destruct (loads line) as [data|e]; [|now eexists].
    destruct (getitem data "number") as [n|e]; [|now eexists].
    destruct (hashable n); [|now eexists].
    now apply IH.
Qed.

(** C5, as the code has it: the scan decodes every line as a whole and
    reads its top-level [number] only.  When every line is a JSON object
    with a hashable [number], the scan returns these numbers in order,
    whatever else the objects hold; when some line is not a JSON document,
    the scan raises. *)
Theorem load_finished_trusts_number_of_json_lines :
  (forall lines ids,
     Forall2 (fun line n =>
                exists pairs, loads line = Ok (JObject pairs) /\
                              dict_get "number" pairs = Some n /\ hashable n = true)
             lines ids ->
     load_finished lines [] = Ok ids) /\
  (forall lines,
     Exists (fun line => loads line = Raise JSONDecodeError) lines ->
     exists e, load_finished lines [] = Raise e).
Proof.
  split.
  - intros lines ids H. exact (load_finished_ok lines ids [] H).
  - intros lines H. exact (load_finished_raises lines [] H).
Qed.

(** C5, as stated, fails: a line that opens with a valid number and whose
    body is cut short does not contribute its number; the scan raises
    [JSONDecodeError]. *)
Lemma truncated_line_fails_the_scan :
  starts_with ("{" ++ quoted "number" ++ ": 7,") Scripted.truncated_line = true /\
  load_finished [Scripted.number_line 1; Scripted.truncated_line] [] = Raise JSONDecodeError.
Proof. split; vm_compute; reflexivity. Qed.

(** *** The events of a pipeline *)

Section PipelineEvents.

Context (W : World) (P : event -> Prop).

Lemma sb_all_ret {A} (a : A) : sb_all W P (sb_ret a).
Proof. intros rt. constructor. Qed.

Lemma sb_all_raise {A} (e : exn) : sb_all W P (@sb_raise (Runtime W) A e).
Proof. intros rt. constructor. Qed.

Lemma sb_all_bind {A B} (m : Sandbox (Runtime W) A) (k : A -> Sandbox (Runtime W) B) :
  sb_all W P m -> (forall a, sb_all W P (k a)) -> sb_all W P (sb_bind m k).
Proof.
  intros Hm Hk rt. unfold sb_bind. specialize (Hm rt).
  destruct (m rt) as [[[a|e] rt1] t]; cbn in *; [|exact Hm].
  specialize (Hk a rt1). destruct (k a rt1) as [[r rt2] t']. cbn in *.
  apply Forall_app. now split.
Qed.

Lemma sb_all_run (a : CmdRunAction) : (forall o, P (EvAction a o)) -> sb_all W P (run W a).
Proof.
  intros H rt. unfold run. destruct (run_action W rt a) as [o rt1]. cbn.
  constructor; [apply H | constructor].
Qed.

Lemma sb_all_sleep (secs : Z) : P (EvSleep secs) -> sb_all W P (sleep W secs).
Proof. intros H rt. cbn. constructor; [exact H | constructor]. Qed.

Lemma sb_all_require (failure : string) (obs : Observation) :
  sb_all W P (require_success W failure obs).
Proof.
  intros rt. unfold require_success.
  destruct obs as [code c|c|c]; [destruct (code =? 0)| |]; constructor.
Qed.

Lemma sb_all_io {A} (m : IO A) : io_all P m -> sb_all W P (@sb_io (Runtime W) A m).
Proof. intros H rt. exact H. Qed.

Lemma io_all_bind {A B} (m : IO A) (k : A -> IO B) :
  io_all P m -> (forall a, io_all P (k a)) -> io_all P (io_bind m k).
Proof.
  unfold io_all, io_bind. intros Hm Hk. destruct m as [[a|e] t]; cbn in *; [|exact Hm].
  specialize (Hk a). destruct (k a) as [r t']. cbn in *. apply Forall_app. now split.
Qed.

Lemma io_all_lift {A} (ev : event) (r : result A) : P ev -> io_all P (io_lift ev r).
Proof. intros H. constructor; [exact H | constructor]. Qed.

Lemma io_all_ret {A} (a : A) : io_all P (io_ret a).
Proof. constructor. Qed.

Lemma io_all_raise {A} (e : exn) : io_all P (@io_raise A e).
Proof. constructor. Qed.

Context (base : string).

Hypothesis P_copytree : forall src dst, P (EvCopytree src dst).
Hypothesis P_create : forall sid, P (EvCreateRuntime sid).
Hypothesis P_staging : forall c o, In c staging_commands -> P (EvAction (cmd c) o).
Hypothesis P_diff : forall n o, P (EvAction (diff_action base n) o).
Hypothesis P_sleep : P (EvSleep 10).
Hypothesis P_controller : forall task_str, P (EvRunController task_str).
Hypothesis P_completion : forall m p k, P (EvCompletion m p k).

Lemma diff_loop_events (fuel : nat) : forall n, sb_all W P (diff_loop W fuel base n).
Proof.
  induction fuel as [|fuel IH]; intros n; cbn [diff_loop]; [apply sb_all_ret|].
  destruct (n <? 5); [|apply sb_all_ret].
  apply sb_all_bind; [apply sb_all_run, P_diff|].
  intros [code c|c|c].
  - destruct (code =? 0); [apply sb_all_ret|].
    apply sb_all_bind; [now apply sb_all_sleep | intros _; apply IH].
  - apply sb_all_bind; [now apply sb_all_sleep | intros _; apply IH].
  - apply sb_all_raise.
Qed.

Lemma initialize_runtime_events : sb_all W P (initialize_runtime W).
Proof.
  unfold initialize_runtime.
  repeat (apply sb_all_bind;
          [first [apply sb_all_run; intros o; apply P_staging; cbn; tauto
                 | apply sb_all_require] | intros ?]).
  apply sb_all_require.
Qed.

Lemma complete_runtime_events : sb_all W P (complete_runtime W base).
Proof.
  unfold complete_runtime.
  repeat (apply sb_all_bind;
          [first [apply sb_all_run; intros o; apply P_staging; cbn; tauto
                 | apply sb_all_require] | intros ?]).
  apply diff_loop_events.
Qed.

Lemma guess_success_events (issue : GithubIssue) (h : list Event) (cfg : LLMConfig) :
  io_all P (guess_success W issue h cfg).
Proof.
  unfold guess_success. destruct (last_item h) as [ev|e]; [|apply io_all_raise].
  apply io_all_bind; [apply io_all_lift, P_completion|].
  intros [text|]; [|apply io_all_raise].
  destruct (parse_answer (strip text)) as [v|[]];
    first [apply io_all_ret | apply io_all_raise].
Qed.

Lemma in_sandbox_events (issue : GithubIssue) (cfg : LLMConfig) (config : AppConfig) :
  sb_all W P (in_sandbox W issue base cfg config).
Proof.
  unfold in_sandbox.
  apply sb_all_bind; [apply initialize_runtime_events | intros _].
  apply sb_all_bind.
  { intros rt. destruct (run_controller W config (get_instruction issue) rt) as [r rt1].
    cbn. constructor; [apply P_controller | constructor]. }
  intros [state|]; [|apply sb_all_raise].
  apply sb_all_bind; [apply complete_runtime_events | intros patch].
  apply sb_all_bind; [apply sb_all_io, guess_success_events | intros v].
  apply sb_all_ret.
Qed.

Lemma process_issue_events (issue : GithubIssue) (max_iter : Z) (cfg : LLMConfig)
    (dir image : string) (reset : bool) :
  io_all P (process_issue W issue base max_iter cfg dir image reset).
Proof.
  unfold process_issue.
  apply io_all_bind; [apply io_all_lift, P_copytree | intros _].
  apply io_all_bind; [apply io_all_lift, P_create | intros rt].
  pose proof (in_sandbox_events issue cfg
    {| default_agent := "CodeActAgent"; runtime := "eventstream";
       max_budget_per_task := 4; max_iterations := max_iter;
       sandbox := {| runtime_container_image := image; enable_auto_lint := true;
                     use_host_network := false; sandbox_timeout := 300 |};
       workspace_base := abspath W (path_join (path_join dir "workspace")
                                      ("issue_" ++ str_of_int (number issue)));
       workspace_mount_path := abspath W (path_join (path_join dir "workspace")
                                      ("issue_" ++ str_of_int (number issue)));
       llm := cfg |} rt) as H.
  unfold io_all.
  destruct (in_sandbox _ _ _ _ _ rt) as [[r rt'] t]. exact H.
Qed.

End PipelineEvents.

(** *** The pool of pipelines *)

Lemma set_slot_length (l : list slot) : forall i s, List.length (set_slot l i s) = List.length l.
Proof.
  induction l as [|x l IH]; intros [|i] s; cbn; try reflexivity. now rewrite IH.
Qed.

Lemma nth_set_slot_same (l : list slot) :
  forall i s x, nth_error l i = Some x -> nth_error (set_slot l i s) i = Some s.
Proof.
  induction l as [|y l IH]; intros [|i] s x H; cbn in *; try discriminate; eauto.
Qed.

Lemma nth_set_slot_other (l : list slot) :
  forall i j s, i <> j -> nth_error (set_slot l i s) j = nth_error l j.
Proof.
  induction l as [|y l IH]; intros [|i] [|j] s H; cbn; try reflexivity; try congruence.
  apply IH. congruence.
Qed.

Lemma count_set_slot (f : slot -> bool) (l : list slot) :
  forall i s x,
    nth_error l i = Some x ->
    (count f (set_slot l i s) + Nat.b2n (f x) = count f l + Nat.b2n (f s))%nat.
Proof.
  unfold count. induction l as [|y l IH]; intros [|i] s x H; cbn in *; try discriminate.
  - inversion H; subst. destruct (f x), (f s); cbn; lia.
  - specialize (IH _ s _ H). destruct (f y); cbn; lia.
Qed.

Lemma count_positive (f : slot -> bool) (l : list slot) :
  (0 < count f l)%nat -> exists i x, nth_error l i = Some x /\ f x = true.
Proof.
  unfold count. induction l as [|y l IH]; cbn; [lia|].
  destruct (f y) eqn:Hy.
  - intros _. now exists 0%nat, y.
  - intros H. destruct (IH H) as (i & x & Hi & Hx). now exists (S i), x.
Qed.

Lemma count_all_waiting (f : slot -> bool) {A} (l : list A) :
  count f (map (fun _ => Waiting) l) = if f Waiting then List.length l else 0%nat.
Proof.
  unfold count. induction l as [|a l IH]; cbn; [now destruct (f Waiting)|].
  destruct (f Waiting); cbn; now rewrite IH.
Qed.

Section Pool.

Context (W : World) (tasks : list Task).

Lemma run_schedule_invariant (I : pool -> Prop) :
  (forall p i, I p -> I (step W tasks p i)) ->
  forall schedule p, I p -> I (run_schedule W tasks p schedule).
Proof.
  intros Hstep schedule. unfold run_schedule.
  induction schedule as [|i schedule IH]; intros p Hp; cbn; [exact Hp|].
  apply IH, Hstep, Hp.
Qed.

Lemma run_schedule_app (p : pool) (s1 s2 : list nat) :
  run_schedule W tasks p (s1 ++ s2) = run_schedule W tasks (run_schedule W tasks p s1) s2.
Proof. unfold run_schedule. apply fold_left_app. Qed.

(** The semaphore counts the pipelines that are not in flight. *)
Lemma step_semaphore (k : nat) (p : pool) (i : nat) :
  (in_flight p + sem p = k)%nat ->
  (in_flight (step W tasks p i) + sem (step W tasks p i) = k)%nat.
Proof.
  intros H. unfold step.
  destruct (nth_error (slots p) i) as [[| |]|] eqn:Hs; try exact H;
    destruct (nth_error tasks i) as [t|]; try exact H.
  - destruct (sem p) as [|v] eqn:Hv; [now rewrite Hv|].
    unfold in_flight in *. cbn [slots sem].
    pose proof (count_set_slot is_running _ _ Running _ Hs) as Hc.
    unfold count in Hc. cbn in Hc. lia.
  - destruct (run_task W t) as [r evs].
    unfold in_flight in *. cbn [slots sem].
    pose proof (count_set_slot is_running _ _ Finished _ Hs) as Hc.
    unfold count in Hc. cbn in Hc. lia.
Qed.

Lemma step_slots_length (p : pool) (i : nat) :
  List.length (slots (step W tasks p i)) = List.length (slots p).
Proof.
  unfold step.
  destruct (nth_error (slots p) i) as [[| |]|]; try reflexivity;
    destruct (nth_error tasks i) as [t|]; try reflexivity.
  - destruct (sem p); [reflexivity|]. apply set_slot_length.
  - destruct (run_task W t). apply set_slot_length.
Qed.

(** From the start, [j] pipelines can be brought in flight, for every [j]
    up to the semaphore's value and the number of tasks. *)
Lemma reach_in_flight (k j : nat) :
  (j <= k)%nat -> (j <= List.length tasks)%nat ->
  exists schedule,
    let p := run_schedule W tasks (start_pool k tasks) schedule in
    in_flight p = j /\ sem p = (k - j)%nat /\
    count is_waiting (slots p) = (List.length tasks - j)%nat /\
    List.length (slots p) = List.length tasks.
Proof.
  induction j as [|j IH]; intros Hk Hn.
  - exists []. cbn. unfold in_flight. cbn.
    pose proof (count_all_waiting is_running tasks) as Hr.
    pose proof (count_all_waiting is_waiting tasks) as Hw.
    unfold count in *. cbn in Hr, Hw. rewrite Hr, Hw, length_map. repeat split; lia.
  - destruct IH as (schedule & Hf & Hsem & Hw & Hlen); [lia|lia|].
    cbn zeta in *. set (p := run_schedule W tasks (start_pool k tasks) schedule) in *.
    destruct (count_positive is_waiting (slots p)) as (i & x & Hi & Hx); [lia|].
    destruct x; try discriminate.
    assert (Ht : exists t, nth_error tasks i = Some t).
    { destruct (nth_error tasks i) as [t|] eqn:E; [now exists t|].
      apply nth_error_None in E. assert (nth_error (slots p) i <> None) by congruence.
      apply nth_error_Some in H. lia. }
    destruct Ht as [t Ht].
    exists (schedule ++ [i])%list. rewrite run_schedule_app. fold p.
    unfold run_schedule. cbn [fold_left]. unfold step. rewrite Hi, Ht.
    destruct (sem p) as [|v] eqn:Hv; [lia|].
    unfold in_flight in *. cbn [slots sem].
    pose proof (count_set_slot is_running _ _ Running _ Hi) as Hr.
    pose proof (count_set_slot is_waiting _ _ Running _ Hi) as Hw'.
    unfold count in *. cbn in Hr, Hw'. rewrite set_slot_length.
    repeat split; lia.
Qed.

(** C7: with a semaphore of [k >= 1] and at least [k] tasks, no pipeline is
    in flight when the gather starts, however many tasks there are; after
    any schedule at most [k] pipelines are in flight; and [k] is reached. *)
Theorem at_most_k_in_flight (k : nat) :
  (1 <= k)%nat -> (k <= List.length tasks)%nat ->
  in_flight (start_pool k tasks) = 0%nat /\
  (forall schedule,
     (in_flight (run_schedule W tasks (start_pool k tasks) schedule) <= k)%nat) /\
  (exists schedule,
     in_flight (run_schedule W tasks (start_pool k tasks) schedule) = k).
Proof.
  intros Hk Hn.
  assert (H0 : in_flight (start_pool k tasks) = 0%nat).
  { unfold in_flight. cbn. pose proof (count_all_waiting is_running tasks) as Hr.
    unfold count in Hr. exact Hr. }
  split; [exact H0|]. split.
  - intros schedule.
    pose proof (run_schedule_invariant
                  (fun p => (in_flight p + sem p = k)%nat)
                  (step_semaphore k) schedule (start_pool k tasks)) as H.
    cbn beta in H. rewrite H0 in H. specialize (H eq_refl). lia.
  - destruct (reach_in_flight k k) as (schedule & Hf & _); [lia|lia|].
    now exists schedule.
Qed.

Lemma step_failures_kept (p : pool) (j : nat) :
  failures_kept W tasks p -> failures_kept W tasks (step W tasks p j).
Proof.
  intros Hp i task e evs. unfold step.
  destruct (nth_error (slots p) j) as [[| |]|] eqn:Hs; try apply Hp;
    destruct (nth_error tasks j) as [t|] eqn:Ht; try apply Hp.
  - destruct (sem p); [apply Hp|]. cbn [slots failure].
    destruct (Nat.eq_dec j i) as [->|Hne].
    + rewrite (nth_set_slot_same _ _ _ _ Hs). discriminate.
    + rewrite nth_set_slot_other by exact Hne. apply Hp.
  - destruct (run_task W t) as [r evs0] eqn:Hr. cbn [slots failure].
    destruct (Nat.eq_dec j i) as [->|Hne].
    + intros _ Hi Hrun. rewrite Ht in Hi. inversion Hi; subst.
      rewrite Hr in Hrun. inversion Hrun; subst.
      now destruct (failure p).
    + rewrite nth_set_slot_other by exact Hne. intros Hi Hti Hrun.
      pose proof (Hp _ _ _ _ Hi Hti Hrun) as Hf.
      destruct r; [exact Hf|]. now destruct (failure p).
Qed.

Lemma step_failures_real (p : pool) (j : nat) :
  failures_real W tasks p -> failures_real W tasks (step W tasks p j).
Proof.
  intros Hp e. unfold step.
  destruct (nth_error (slots p) j) as [[| |]|] eqn:Hs; try apply Hp;
    destruct (nth_error tasks j) as [t|] eqn:Ht; try apply Hp.
  - destruct (sem p); apply Hp.
  - destruct (run_task W t) as [r evs0] eqn:Hr. cbn [failure].
    destruct r as [u|e0]; [apply Hp|].
    destruct (failure p) as [e1|] eqn:Hf; cbn.
    + intros H. apply Hp. congruence.
    + intros [= <-]. now exists j, t, evs0.
Qed.

Lemma start_failures (k : nat) :
  failures_kept W tasks (start_pool k tasks) /\ failures_real W tasks (start_pool k tasks).
Proof.
  split.
  - intros i task e evs H. cbn in H. rewrite nth_error_map in H.
    destruct (nth_error tasks i); discriminate.
  - intros e H. discriminate.
Qed.

(** A pipeline that raises has written no record. *)
Lemma run_task_raise (task : Task) (e : exn) (evs : list event) :
  run_task W task = (Raise e, evs) -> forallb (fun ev => negb (is_write ev)) evs = true.
Proof.
  unfold run_task, update_progress, io_bind.
  pose proof (process_issue_events W (fun ev => negb (is_write ev) = true)
                (t_base_commit task)) as H.
  specialize (H (fun _ _ => eq_refl) (fun _ => eq_refl) (fun _ _ _ => eq_refl)
                (fun _ _ => eq_refl) eq_refl (fun _ => eq_refl) (fun _ _ _ => eq_refl)
                (t_issue task) (t_max_iterations task) (t_llm_config task)
                (t_output_dir task) (t_runtime_container_image task) (t_reset_logger task)).
  unfold io_all in H.
  destruct (process_issue W _ _ _ _ _ _ _) as [[out|e0] t]; cbn in *; [discriminate|].
  intros [= <- <-]. now apply forallb_forall, Forall_forall.
Qed.

End Pool.

(** *** resolve_issues *)

Section Run.

Context (W : World).

Lemma prepare_ok (a : Args) (plan : Plan) (t : list event) :
  prepare W a = (Ok plan, t) ->
  exists rev reads,
    check_output W (rev_parse_argv a) = Ok rev /\
    p_base_commit plan = strip rev /\
    p_tasks plan = map (make_task a (p_base_commit plan)) (p_issues plan) /\
    p_new_issues plan = filter_finished W (p_issues plan) (p_finished_numbers plan) /\
    p_output_file plan = path_join (a_output_dir a) "output.jsonl" /\
    (reads = [] \/ reads = [EvReadLines (p_output_file plan)]) /\
    t = ([EvDownload (a_owner a) (a_repo a);
          EvMkdir (a_output_dir a);
          EvMkdir (path_join (a_output_dir a) "infer_logs");
          EvCheckOutput (clone_argv a);
          EvCheckOutput (rev_parse_argv a)] ++ reads
         ++ [EvOpenAppend (p_output_file plan)])%list.
Proof.
  unfold prepare, io_bind, io_lift, io_log, io_ret, io_raise.
  destruct (download_issues W _ _ _) as [issues0|e]; [|discriminate].
  destruct (mkdir W (a_output_dir a)) as [[]|e]; [|discriminate].
  destruct (mkdir W (path_join _ _)) as [[]|e]; [|discriminate].
  destruct (check_output W (clone_argv a)) as [clone|e]; [|discriminate].
  destruct (contains "fatal" clone); [discriminate|].
  destruct (check_output W (rev_parse_argv a)) as [rev|e]; [|discriminate].
  destruct (path_exists W _).
  - destruct (load_finished _ _) as [finished|e]; [|discriminate].
    cbn. intros [= <- <-]. exists rev, [EvReadLines (path_join (a_output_dir a) "output.jsonl")].
    cbn. repeat split; auto.
  - cbn. intros [= <- <-]. exists rev, []. cbn. repeat split; auto.
Qed.





(** The coroutines are made for [issues], the list before the filter: the
    filtered list [new_issues] is not what the loop reads. *)
Lemma prepare_schedules_every_issue (a : Args) (plan : Plan) (t : list event) :
  prepare W a = (Ok plan, t) ->
  map t_issue (p_tasks plan) = p_issues plan /\
  p_new_issues plan = filter_finished W (p_issues plan) (p_finished_numbers plan).
Proof.
  intros H. destruct (prepare_ok _ _ _ H) as (rev & reads & _ & _ & Ht & Hn & _).
  split; [|exact Hn]. rewrite Ht, map_map. cbn. apply map_id.
Qed.


(** C2, as the code has it: a pipeline that raises ends the run.  When a
    pipeline has run and ended with an exception, it has written no
    record, and [resolve_issues] ends with an exception, one that a
    pipeline of the run raised. *)
Theorem failed_pipeline_ends_the_run (a : Args) (plan : Plan) (t0 : list event)
    (schedule : list nat) (i : nat) (task : Task) (e : exn) (evs : list event) :
  prepare W a = (Ok plan, t0) ->
  0 <= a_num_workers a ->
  nth_error (p_tasks plan) i = Some task ->
  run_task W task = (Raise e, evs) ->
  nth_error (slots (run_schedule W (p_tasks plan)
                      (start_pool (Z.to_nat (a_num_workers a)) (p_tasks plan)) schedule)) i
    = Some Finished ->
  forallb (fun ev => negb (is_write ev)) evs = true /\
  exists e' j task' evs',
    run_status (resolve_issues W a schedule) = Raised e' /\
    nth_error (p_tasks plan) j = Some task' /\
    run_task W task' = (Raise e', evs').
Proof.
  intros Hprep Hk Hi Hrun Hdone.
  split; [exact (run_task_raise W task e evs Hrun)|].
  unfold resolve_issues. rewrite Hprep.
  replace (a_num_workers a <? 0) with false by (symmetry; apply Z.ltb_ge; lia).
  set (p := run_schedule W (p_tasks plan) _ schedule) in *.
  destruct (start_failures W (p_tasks plan) (Z.to_nat (a_num_workers a))) as [Hkept Hreal].
  pose proof (run_schedule_invariant W (p_tasks plan) _
                (step_failures_kept W (p_tasks plan)) schedule _ Hkept) as Hk1.
  pose proof (run_schedule_invariant W (p_tasks plan) _
                (step_failures_real W (p_tasks plan)) schedule _ Hreal) as Hk2.
  fold p in Hk1, Hk2.
  specialize (Hk1 i task e evs Hdone Hi Hrun).
  destruct (failure p) as [e'|] eqn:Hf; [|congruence].
  destruct (Hk2 e' Hf) as (j & task' & evs' & Hj & Hr).
  now exists e', j, task', evs'.
Qed.

(** *** The command line *)

(** C9: the command line refuses to start.  Without a token, on the
    command line or in the environment, and likewise when the output
    directory exists, [main] ends with an exception and has done nothing:
    no event, so no pipeline and no record.  For a repository of the form
    owner/repo the exception is the [ValueError] of the failed check, the
    token being checked first. *)
Theorem main_refuses_to_start (my_args : CmdLine) (schedule : list nat) :
  let token :=
    if truthy (arg_token my_args) then arg_token my_args else getenv W "GITHUB_TOKEN" in
  let exists_message :=
    "Output directory " ++ arg_output_dir my_args
      ++ " already exists, remove it or specify a different one." in
  (truthy token = false \/ path_exists W (arg_output_dir my_args) = true ->
   run_trace (main W my_args schedule) = [] /\
   exists e, run_status (main W my_args schedule) = Raised e) /\
  (forall owner repo,
     split_on "/" (arg_repo my_args) = [owner; repo] ->
     (truthy token = false ->
      run_status (main W my_args schedule) = Raised (ValueError "Github token is required.")) /\
     (truthy token = true -> path_exists W (arg_output_dir my_args) = true ->
      run_status (main W my_args schedule) = Raised (ValueError exists_message))).
Proof.
  cbn zeta. unfold main.
  set (token := if truthy (arg_token my_args) then arg_token my_args
                else getenv W "GITHUB_TOKEN").
  split.
  - intros H.
    destruct (split_on "/" (arg_repo my_args)) as [|o [|r [|x l]]];
      try (split; [reflexivity | now eexists]).
    destruct token as [tok|]; [|split; [reflexivity | now eexists]].
    cbn [truthy] in H.
    destruct (String.eqb tok ""); [split; [reflexivity | now eexists]|].
    destruct H as [H|H]; [discriminate|]. rewrite H.
    split; [reflexivity | now eexists].
  - intros o r Hsplit. rewrite Hsplit. split.
    + intros H. destruct token as [tok|]; [|reflexivity].
      cbn [truthy] in H. destruct (String.eqb tok ""); [reflexivity|discriminate].
    + intros H Hdir. destruct token as [tok|]; [|discriminate].
      cbn [truthy] in H. destruct (String.eqb tok ""); [discriminate|].
      now rewrite Hdir.
Qed.

End Run.

(** ** Runs in scripted worlds *)

Import Scripted.

(** C1, at a run the code gets wrong: three issues, a store that holds the
    numbers 1 and 2, one worker.  The scan finds both numbers and the
    filter keeps issue 3 alone, yet three coroutines are made, one per
    issue, and the run writes records for 1, 2 and 3: the finished issues
    are run and recorded a second time. *)
Theorem finished_issues_run_again :
  let w := world resumed in
  let run := resolve_issues w (args 1) (one_by_one 3) in
  (exists plan t,
     prepare w (args 1) = (Ok plan, t) /\
     p_finished_numbers plan = [JInt 1; JInt 2] /\
     map number (p_new_issues plan) = [3] /\
     map (fun task => number (t_issue task)) (p_tasks plan) = [1; 2; 3]) /\
  run_status run = Returned /\
  written_numbers (run_trace run) = [1; 2; 3].
Proof.
  cbn zeta. split.
  - eexists _, _. split; [vm_compute; reflexivity|]. repeat split.
  - split; vm_compute; reflexivity.
Qed.

(** C2, as stated, fails: the agent of the first issue returns no state,
    the pipeline raises, the run ends with that exception and the issue
    has no record. *)
Lemma failed_item_ends_the_run :
  let run := resolve_issues (world first_fails) (args 1) [0; 0]%nat in
  run_status run = Raised (RuntimeError "Failed to run the agent.") /\
  written_numbers (run_trace run) = [].
Proof. cbn zeta. split; vm_compute; reflexivity. Qed.

Lemma failed_pipeline_ends_the_run_witness :
  let w := world first_fails in
  run_task w first_task
    = (Raise (RuntimeError "Failed to run the agent."), snd (run_task w first_task)) /\
  forallb (fun ev => negb (is_write ev)) (snd (run_task w first_task)) = true /\
  exists e' j task' evs',
    run_status (resolve_issues w (args 1) [0; 0]%nat) = Raised e' /\
    nth_error (map (make_task (args 1) "0a1b2c3") three_issues) j = Some task' /\
    run_task w task' = (Raise e', evs').
Proof.
  cbn zeta. split; [vm_compute; reflexivity|].
  refine (failed_pipeline_ends_the_run (world first_fails) (args 1)
            {| p_issues := three_issues;
               p_base_commit := "0a1b2c3";
               p_output_file := "output/output.jsonl";
               p_finished_numbers := [];
               p_new_issues := three_issues;
               p_tasks := map (make_task (args 1) "0a1b2c3") three_issues |}
            (snd (prepare (world first_fails) (args 1)))
            [0; 0]%nat 0%nat first_task
            (RuntimeError "Failed to run the agent.")
            (snd (run_task (world first_fails) first_task)) _ _ _ _ _).
  - vm_compute. reflexivity.
  - discriminate.
  - reflexivity.
  - vm_compute. reflexivity.
  - vm_compute. reflexivity.
Defined.

Lemma diff_retry_protocol_witness :
  diff_loop quiet 5 "0a1b2c3" 0 flaky = (Ok (Some "diff --git a/f b/f"), [], flaky_trace) /\
  (List.length (attempts flaky_trace) <= 5)%nat /\
  (forall n a o, nth_error (attempts flaky_trace) n = Some (a, o) ->
     command a = "git diff --no-color --cached 0a1b2c3" /\
     timeout a = Some (600 + 100 * Z.of_nat n)).
Proof.
  split; [vm_compute; reflexivity|].
  pose proof (diff_retry_protocol quiet "0a1b2c3" flaky
                (Ok (Some "diff --git a/f b/f")) [] flaky_trace) as H.
  assert (Hrun : diff_loop quiet 5 "0a1b2c3" 0 flaky
                 = (Ok (Some "diff --git a/f b/f"), [], flaky_trace))
    by (vm_compute; reflexivity).
  destruct (H Hrun) as (H1 & H2 & _). split; [exact H1 | exact H2].
Defined.

Lemma empty_diff_is_a_patch_witness :
  complete_runtime quiet "0a1b2c3" unchanged = (Ok (Some ""), [], unchanged_trace) /\
  In (EvAction (diff_action "0a1b2c3" 1) (CmdOutputObservation 0 "")) unchanged_trace /\
  Ok (Some "") <> @Ok (option string) None.
Proof.
  assert (Hrun : complete_runtime quiet "0a1b2c3" unchanged
                 = (Ok (Some ""), [], unchanged_trace))
    by (vm_compute; reflexivity).
  assert (Hin : In (EvAction (diff_action "0a1b2c3" 1) (CmdOutputObservation 0 ""))
                   unchanged_trace).
  { vm_compute. do 6 right. left. reflexivity. }
  split; [exact Hrun|]. split; [exact Hin|].
  exact (proj2 (empty_diff_is_a_patch quiet "0a1b2c3" unchanged (Ok (Some "")) []
                  unchanged_trace (diff_action "0a1b2c3" 1) Hrun eq_refl Hin)).
Defined.

Lemma load_finished_witness :
  load_finished [drifted_line; number_line 2] [] = Ok [JInt 1; JInt 2].
Proof.
  apply (proj1 load_finished_trusts_number_of_json_lines).
  constructor; [|constructor; [|constructor]].
  - eexists. split; [vm_compute; reflexivity|]. split; reflexivity.
  - eexists. split; [vm_compute; reflexivity|]. split; reflexivity.
Defined.

Lemma at_most_k_in_flight_witness :
  in_flight (start_pool 2 three_tasks) = 0%nat /\
  (forall schedule,
     (in_flight (run_schedule quiet three_tasks (start_pool 2 three_tasks) schedule) <= 2)%nat) /\
  (exists schedule,
     in_flight (run_schedule quiet three_tasks (start_pool 2 three_tasks) schedule) = 2%nat).
Proof.
  apply (at_most_k_in_flight quiet three_tasks 2).
  - apply le_S, le_n.
  - apply le_S, le_n.
Defined.


Lemma main_refuses_to_start_witness :
  run_status (main (world resumed) command_line [])
    = Raised (ValueError "Github token is required.") /\
  run_status (main (world resumed) command_line_with_token [])
    = Raised (ValueError
                "Output directory output already exists, remove it or specify a different one.").
Proof.
  split.
  - exact (proj1 (proj2 (main_refuses_to_start (world resumed) command_line [])
                    "acme" "widgets" eq_refl) eq_refl).
  - exact (proj2 (proj2 (main_refuses_to_start (world resumed) command_line_with_token [])
                    "acme" "widgets" eq_refl) eq_refl eq_refl).
Defined.

Lemma guess_success_reads_last_message_witness :
  guess_success quiet (issue 1 "first") [] llm = (Raise IndexError, []) /\
  guess_success quiet (issue 1 "first") (history done_state) llm
  = guess_success quiet (issue 1 "first")
      [ {| message := "All done."; detail := "MessageAction" |} ] llm.
Proof.
  destruct (guess_success_reads_last_message quiet (issue 1 "first") llm) as (H0 & _ & H).
  split; [exact H0|].
  exact (H [ {| message := "Running command: pytest"; detail := "CmdRunAction" |} ] []
           {| message := "All done."; detail := "AgentFinishAction" |}
           {| message := "All done."; detail := "MessageAction" |} eq_refl).
Defined.
